(** * Bike radar backend: frame synchronisation, TLV decoding, grid mapping

    A shallow embedding of [src/backend/grid_backend.py].

    - Python [float] and numpy [float64] values are IEEE-754 binary64
      numbers, modelled by the Standard Library's [spec_float] with the
      operations of [SpecFloat] at precision 53 (round to nearest even).
    - [bytes] / [bytearray] are lists of [byte].
    - The attributes of the [GridBackend] object are a record that is
      passed explicitly; a method that mutates [self] returns the new
      record.
    - An exception is an explicit [None] / error constructor, caught where
      the source has its [try ... except]. *)

From Stdlib Require Import ZArith List Bool Lia.
From Stdlib Require Import Floats.SpecFloat Strings.Byte.
From stdpp Require Import base list.

Local Open Scope Z_scope.

(* ===================================================================== *)
(** ** Binary64 arithmetic as Python performs it                          *)
(* ===================================================================== *)

Module PyFloat.

Definition prec : Z := 53.
Definition emax : Z := 1024.

Definition float := spec_float.

Definition fsub : float -> float -> float := SFsub prec emax.
Definition fmul : float -> float -> float := SFmul prec emax.
Definition fdiv : float -> float -> float := SFdiv prec emax.
Definition fltb : float -> float -> bool := SFltb.
Definition fleb : float -> float -> bool := SFleb.

(** The binary64 number nearest to [m * 2^e]. *)
Definition of_scaled (m e : Z) : float := binary_normalize prec emax m e false.

(** Conversion of a Python [int] operand to binary64. *)
Definition of_Z (z : Z) : float := of_scaled z 0.

(** [int(x)] on a float: truncation towards zero; [None] stands for the
    [ValueError] / [OverflowError] raised on NaN and the infinities. *)
Definition py_int (x : float) : option Z :=
  match x with
  | S754_zero _ => Some 0
  | S754_finite s m e =>
      Some (cond_Zopp s
              (match e with
               | Z0 => Zpos m
               | Zpos p => Zpos m * 2 ^ Zpos p
               | Zneg p => Zpos m / 2 ^ Zpos p
               end))
  | S754_infinity _ => None
  | S754_nan => None
  end.

(** The value of the 32-bit pattern [w] read as an IEEE single, widened
    (exactly) to binary64: what [struct.unpack] returns for an [f]. *)
Definition of_bits32 (w : Z) : float :=
  let s := Z.testbit w 31 in
  let e := Z.land (Z.shiftr w 23) 255 in
  let m := Z.land w (2 ^ 23 - 1) in
  if e =? 255 then (if m =? 0 then S754_infinity s else S754_nan)
  else if e =? 0 then binary_normalize prec emax (cond_Zopp s m) (-149) s
  else binary_normalize prec emax (cond_Zopp s (m + 2 ^ 23)) (e - 150) s.

End PyFloat.
Import PyFloat.

(** A Python number that is either an [int] or a float: [min] and [max]
    return one of their arguments unchanged, so a clamped coordinate can be
    either. *)
Inductive num :=
| NInt (z : Z)
| NFloat (x : float).

(** [a < b] and [a <= b]; an [int] met by a float is converted to binary64
    first, two [int]s are compared exactly. *)
Definition num_ltb (a b : num) : bool :=
  match a, b with
  | NInt x, NInt y => x <? y
  | NInt x, NFloat y => fltb (of_Z x) y
  | NFloat x, NInt y => fltb x (of_Z y)
  | NFloat x, NFloat y => fltb x y
  end.

Definition num_leb (a b : num) : bool :=
  match a, b with
  | NInt x, NInt y => x <=? y
  | NInt x, NFloat y => fleb (of_Z x) y
  | NFloat x, NInt y => fleb x (of_Z y)
  | NFloat x, NFloat y => fleb x y
  end.

(** The builtins [min(a, b)] and [max(a, b)]: the first argument is kept
    unless the second is strictly smaller (resp. larger). *)
Definition py_min (a b : num) : num := if num_ltb b a then b else a.
Definition py_max (a b : num) : num := if num_ltb a b then b else a.

(* ===================================================================== *)
(** ** Byte strings and [struct]                                          *)
(* ===================================================================== *)

Definition bytes := list byte.

#[global] Instance byte_eq_decision : EqDecision byte := Byte.byte_eq_dec.

(** [data[i:j]] for [0 <= i <= j]: slicing never raises, it truncates. *)
Definition slice (data : bytes) (i j : nat) : bytes := take (j - i) (drop i data).

(** [data.find(sub)]: index of the first occurrence, [None] for [-1]. *)
Fixpoint find (sub buf : bytes) : option nat :=
  if decide (take (length sub) buf = sub) then Some 0%nat
  else match buf with
       | [] => None
       | _ :: rest => S <$> find sub rest
       end.

Module Struct.

(** Little-endian unsigned integer held by a byte string. *)
Fixpoint le_uint (bs : bytes) : Z :=
  match bs with
  | [] => 0
  | b :: rest => Z.of_N (Byte.to_N b) + 256 * le_uint rest
  end.

(** The [n]-byte little-endian encoding of [z]. *)
Fixpoint le_bytes (n : nat) (z : Z) : bytes :=
  match n with
  | O => []
  | S n' =>
      match Byte.of_N (Z.to_N (z mod 256)) with
      | Some b => b :: le_bytes n' (z / 256)
      | None => x00 :: le_bytes n' (z / 256)
      end
  end.

(** A field returned by [unpack]: an [I]/[Q] gives an [int], an [f] a
    float. *)
Inductive field :=
| FInt (z : Z)
| FFloat (x : float).

(** Storing a field into a [float64] array cell. *)
Definition to_float64 (v : field) : float :=
  match v with
  | FInt z => of_Z z
  | FFloat x => x
  end.

(** Consecutive 4-byte fields of [data], decoded with [dec]. *)
Fixpoint words {A} (dec : bytes -> A) (n : nat) (data : bytes) : list A :=
  match n with
  | O => []
  | S n' => dec (take 4 data) :: words dec n' (drop 4 data)
  end.

(** [struct.unpack('Q8I', data)]: one u64 then eight u32, 40 bytes;
    [None] stands for [struct.error] (wrong length). *)
Definition unpack_Q8I (data : bytes) : option (list Z) :=
  if decide (length data = 40%nat)
  then Some (le_uint (take 8 data) :: words le_uint 8 (drop 8 data))
  else None.

(** [struct.unpack('2I', data)]: 8 bytes. *)
Definition unpack_2I (data : bytes) : option (Z * Z) :=
  if decide (length data = 8%nat)
  then Some (le_uint (take 4 data), le_uint (take 4 (drop 4 data)))
  else None.

(** [struct.unpack('I27f', data)]: one u32 then 27 singles, 112 bytes. *)
Definition unpack_I27f (data : bytes) : option (list field) :=
  if decide (length data = 112%nat)
  then Some (FInt (le_uint (take 4 data))
             :: words (fun w => FFloat (of_bits32 (le_uint w))) 27 (drop 4 data))
  else None.

End Struct.
Import Struct.

Definition MAGIC_WORD : bytes := [x02; x01; x04; x03; x06; x05; x08; x07].
Definition HEADER_LEN : nat := 40.

(** [HEADER_STRUCT.unpack] keeps [magic], [version], [totalPacketLen] and
    drops the rest into [*_]. *)
Definition header_fields (data : bytes) : option (Z * Z * Z) :=
  match unpack_Q8I data with
  | Some (magic :: version :: totalPacketLen :: _) => Some (magic, version, totalPacketLen)
  | _ => None
  end.

(* ===================================================================== *)
(** ** The backend object                                                 *)
(* ===================================================================== *)

(** The grid attributes of [GridBackend].  [__init__] sets all six to the
    [int] 0; the four bounds are only read once [nx] and [ny] are nonzero,
    that is after [create_grid] has stored floats in them, so they are
    floats here. *)
Record GridBackend := mkBackend {
  x_min : float;
  x_max : float;
  y_min : float;
  y_max : float;
  nx : Z;
  ny : Z
}.

Definition init : GridBackend :=
  mkBackend (of_Z 0) (of_Z 0) (of_Z 0) (of_Z 0) 0 0.

(** The [cfg] dictionary built by the front end: six spin-box values. *)
Record Cfg := mkCfg {
  cfg_x_min : float;
  cfg_x_max : float;
  cfg_y_min : float;
  cfg_y_max : float;
  cfg_dx : float;
  cfg_dy : float
}.

(** What [create_grid] prints or emits. *)
Inductive grid_outcome :=
| InvalidCellSize
| InvalidRange
| InvalidGridSize
| BackendError
| GridReady (grid : list (list float)).

(** [np.zeros((rows, cols))]. *)
Definition np_zeros (rows cols : Z) : list (list float) :=
  replicate (Z.to_nat rows) (replicate (Z.to_nat cols) (S754_zero false)).

Definition create_grid (self : GridBackend) (cfg : Cfg) : GridBackend * grid_outcome :=
  let self := mkBackend (cfg_x_min cfg) (cfg_x_max cfg) (cfg_y_min cfg) (cfg_y_max cfg)
                        (nx self) (ny self) in
  let dx := cfg_dx cfg in
  let dy := cfg_dy cfg in
  if fleb dx (of_Z 0) || fleb dy (of_Z 0) then (self, InvalidCellSize)
  else if fleb (x_max self) (x_min self) || fleb (y_max self) (y_min self)
  then (self, InvalidRange)
  else
    match py_int (fdiv (fsub (x_max self) (x_min self)) dx) with
    | None => (self, BackendError)
    | Some nx' =>
        let self := mkBackend (x_min self) (x_max self) (y_min self) (y_max self)
                              nx' (ny self) in
        match py_int (fdiv (fsub (y_max self) (y_min self)) dy) with
        | None => (self, BackendError)
        | Some ny' =>
            let self := mkBackend (x_min self) (x_max self) (y_min self) (y_max self)
                                  (nx self) ny' in
            if (nx self <=? 0) || (ny self <=? 0) then (self, InvalidGridSize)
            else (self, GridReady (np_zeros (ny self) (nx self)))
        end
    end.

(* ===================================================================== *)
(** ** Track records                                                      *)
(* ===================================================================== *)

(** One row of the [targets] array: the twelve columns that are written
    (columns 12 to 15 of the sixteen are never written nor read). *)
Record Track := mkTrack {
  tid : float;
  posX : float; posY : float; posZ : float;
  velX : float; velY : float; velZ : float;
  accX : float; accY : float; accZ : float;
  gain : float;
  conf : float
}.

Definition targetSize : nat := 112.

(** The twelve assignments [targets[i, c] = targetData[k]]. *)
Definition row_of (targetData : list field) : Track :=
  let col k := to_float64 (nth k targetData (FInt 0)) in
  mkTrack (col 0%nat) (col 1%nat) (col 2%nat) (col 3%nat) (col 4%nat) (col 5%nat)
          (col 6%nat) (col 7%nat) (col 8%nat) (col 9%nat) (col 26%nat) (col 27%nat).

(** A produced point: the dictionary appended to [rescaled_points]. *)
Record Point := mkPoint {
  p_x : num;
  p_y : num;
  p_id : Z;
  p_x_real : float;
  p_y_real : float
}.

(** What a call of [rescale_and_emit_points] does: return without
    emitting, emit one list on [radar_points_ready], or raise. *)
Inductive emission :=
| NoEmit
| Emit (rescaled_points : list Point)
| Raise.

Definition half : float := of_scaled 1 (-1).

Section Backend.

(** The contents of the rows that [np.empty] hands out: row [i] of a
    fresh array holds whatever [uninit i] is. *)
Variable uninit : nat -> Track.

Definition np_empty (n : nat) : list Track := uninit <$> seq 0 n.

(** The [for i in range(numDetectedTargets)] loop of [parse_track_tlv],
    with [r] iterations left; the flag is [false] when [unpack] raised
    and the function returned from inside the loop. *)
Fixpoint fill_targets (r i : nat) (targets : list Track) (tlvData : bytes)
  : bool * list Track :=
  match r with
  | O => (true, targets)
  | S r' =>
      match unpack_I27f (take targetSize tlvData) with
      | None => (false, targets)
      | Some targetData =>
          fill_targets r' (S i) (<[i := row_of targetData]> targets)
                       (drop targetSize tlvData)
      end
  end.

(** [None]: an exception left the function ([int] of a non-finite
    quotient). *)
Definition parse_track_tlv (tlvData : bytes) (tlvLength : Z) : option (Z * list Track) :=
  match py_int (fdiv (of_Z tlvLength) (of_Z (Z.of_nat targetSize))) with
  | None => None
  | Some numDetectedTargets =>
      let targets := np_empty (Z.to_nat numDetectedTargets) in
      match fill_targets (Z.to_nat numDetectedTargets) 0 targets tlvData with
      | (false, targets) => Some (0, targets)
      | (true, targets) => Some (numDetectedTargets, targets)
      end
  end.

(** The body of the [for i_t] loop; [None] when [int(targets[i_t, 0])]
    raises. *)
Definition rescale_point (self : GridBackend) (t : Track) : option Point :=
  match py_int (tid t) with
  | None => None
  | Some target_id =>
      let x_m := posX t in
      let y_m := posY t in
      let x_grid := fmul (fdiv (fsub x_m (x_min self)) (fsub (x_max self) (x_min self)))
                         (of_Z (nx self - 1)) in
      let y_grid := fmul (fdiv (fsub y_m (y_min self)) (fsub (y_max self) (y_min self)))
                         (of_Z (ny self - 1)) in
      let x_grid := py_max (NInt 0) (py_min (NInt (nx self - 1)) (NFloat x_grid)) in
      let y_grid := py_max (NInt 0) (py_min (NInt (ny self - 1)) (NFloat y_grid)) in
      Some (mkPoint x_grid y_grid target_id x_m y_m)
  end.

Fixpoint rescale_loop (self : GridBackend) (targets : list Track) : option (list Point) :=
  match targets with
  | [] => Some []
  | t :: rest =>
      match rescale_point self t with
      | None => None
      | Some p =>
          match rescale_loop self rest with
          | None => None
          | Some ps => Some (p :: ps)
          end
      end
  end.

(** [targets[targets[:, 11] >= 0.5]] *)
Definition confidence_filter (targets : list Track) : list Track :=
  List.filter (fun t => fleb half (conf t)) targets.

Definition rescale_and_emit_points (self : GridBackend) (targets : list Track) : emission :=
  if decide (length targets = 0%nat) then NoEmit
  else
    let targets := confidence_filter targets in
    if decide (length targets = 0%nat) then NoEmit
    else if (nx self =? 0) || (ny self =? 0) then NoEmit
    else match rescale_loop self targets with
         | None => Raise
         | Some rescaled_points => Emit rescaled_points
         end.

Definition tlv_header_decode (data : bytes) : option (Z * Z) := unpack_2I data.

Definition tlvHeaderLength : nat := 8.

(** The body of the [try] in [parse_standard_frame], given the decoded
    TLV header: the lists emitted, or [None] when an exception reaches
    the [except]. *)
Definition dispatch_tlv (self : GridBackend) (tlvType : Z) (tlvPayload : bytes)
           (tlvLength : Z) : option (list (list Point)) :=
  if tlvType =? 1020 then Some []
  else if tlvType =? 1010 then
    match parse_track_tlv tlvPayload tlvLength with
    | None => None
    | Some (numDetectedTargets, targets) =>
        if 0 <? numDetectedTargets then
          match rescale_and_emit_points self targets with
          | NoEmit => Some []
          | Emit pts => Some [pts]
          | Raise => None
          end
        else Some []
    end
  else if tlvType =? 1011 then Some []
  else if tlvType =? 1012 then Some []
  else if tlvType =? 1021 then Some []
  else Some [].

(** The [for i in range(numTLVs)] loop with [n] iterations left. *)
Fixpoint tlv_loop (self : GridBackend) (frameData : bytes) (n offset : nat)
  : list (list Point) :=
  match n with
  | O => []
  | S n' =>
      match tlv_header_decode (slice frameData offset (offset + tlvHeaderLength)) with
      | None => []
      | Some (tlvType, tlvLength) =>
          let tlvPayload :=
            slice frameData (offset + tlvHeaderLength)
                  (offset + tlvHeaderLength + Z.to_nat tlvLength) in
          match dispatch_tlv self tlvType tlvPayload tlvLength with
          | None => []
          | Some out =>
              out ++ tlv_loop self frameData n'
                              (offset + (tlvHeaderLength + Z.to_nat tlvLength))
          end
      end
  end.

(** The lists emitted on [radar_points_ready] while parsing one frame. *)
Definition parse_standard_frame (self : GridBackend) (frameData : bytes)
  : list (list Point) :=
  let frameHeaderLen := 40%nat in
  match unpack_Q8I (take frameHeaderLen frameData) with
  | Some [magic; version; totalPacketLen; platform; frameNum; timeCPUCycles;
          numDetectedObj; numTLVs; subFrameNum] =>
      tlv_loop self frameData (Z.to_nat numTLVs) frameHeaderLen
  | _ => []
  end.

(** How one pass through the body of the [while self.running] loop ends. *)
Inductive outcome :=
| NoMagic
| ShortHeader
| BadMagic
| StructError
| ShortFrame
| Frame (frame_bytes : bytes).

(** The loop body after the read: new buffer and how the pass ended. *)
Definition sync_buffer (buffer : bytes) : bytes * outcome :=
  match find MAGIC_WORD buffer with
  | None =>
      (if decide (1024 < length buffer)%nat
       then drop (length buffer - 1024) buffer else buffer, NoMagic)
  | Some magic_idx =>
      let buffer := drop magic_idx buffer in
      if decide (length buffer < HEADER_LEN)%nat then (buffer, ShortHeader)
      else
        match header_fields (take HEADER_LEN buffer) with
        | None => (buffer, StructError)
        | Some (magic, version, totalPacketLen) =>
            if negb (magic =? 0x0708050603040102) then (drop 1 buffer, BadMagic)
            else if Z.of_nat (length buffer) <? totalPacketLen then (buffer, ShortFrame)
            else (drop (Z.to_nat totalPacketLen) buffer,
                  Frame (take (Z.to_nat totalPacketLen) buffer))
        end
  end.

(** One pass: [chunk] is what [ser.read(ser.in_waiting)] returned (empty
    when nothing was waiting); an extracted frame is parsed at once. *)
Definition iteration (self : GridBackend) (buffer chunk : bytes)
  : bytes * outcome * list (list Point) :=
  let buffer := buffer ++ chunk in
  let '(buffer, o) := sync_buffer buffer in
  match o with
  | Frame frame_bytes => (buffer, o, parse_standard_frame self frame_bytes)
  | _ => (buffer, o, [])
  end.

(** The reading loop run over the successive reads of the port, starting
    from [buffer]: the final buffer, how each pass ended, and everything
    emitted, in order. *)
Fixpoint _read_from_serial_port (self : GridBackend) (reads : list bytes) (buffer : bytes)
  : bytes * list outcome * list (list Point) :=
  match reads with
  | [] => (buffer, [], [])
  | chunk :: reads' =>
      let '(buffer, o, out) := iteration self buffer chunk in
      let '(buffer, os, outs) := _read_from_serial_port self reads' buffer in
      (buffer, o :: os, out ++ outs)
  end.

(** The frames handed to [parse_standard_frame] during a run. *)
Definition frames_of (os : list outcome) : list bytes :=
  omap (fun o => match o with Frame f => Some f | _ => None end) os.

End Backend.

(* ===================================================================== *)
(** ** Specification-side vocabulary and concrete data                    *)
(* ===================================================================== *)

(** The [totalPacketLen] field of a buffer that starts with a header. *)
Definition declared_len (buffer : bytes) : Z := le_uint (slice buffer 12 16).

(** A frame that is valid for the synchroniser: it starts with the marker,
    holds at least a header, and its length field is its own length. *)
Definition valid_frame (f : bytes) : Prop :=
  take 8 f = MAGIC_WORD /\ (HEADER_LEN <= length f)%nat /\
  declared_len f = Z.of_nat (length f).

(** The decimal literal [m / 10^k], correctly rounded. *)
Definition dec (m : Z) (k : Z) : float := fdiv (of_Z m) (of_Z (10 ^ k)).

(** [lo <= g <= hi] for a produced coordinate. *)
Definition between (lo hi : float) (g : num) : bool :=
  num_leb (NFloat lo) g && num_leb g (NFloat hi).

(** What the loop body does with a buffer that starts at the marker and
    holds a whole header: it looks at the declared length only. *)
Definition at_marker (buffer : bytes) : bytes * outcome :=
  if Z.of_nat (length buffer) <? declared_len buffer then (buffer, ShortFrame)
  else (drop (Z.to_nat (declared_len buffer)) buffer,
        Frame (take (Z.to_nat (declared_len buffer)) buffer)).

(** A coordinate produced for a grid of [n] cells: the [int] 0, the [int]
    [n - 1], or a float strictly between the two. *)
Definition clamped (n : Z) (g : num) : Prop :=
  g = NInt 0 \/ g = NInt (n - 1) \/
  exists x, g = NFloat x /\ fltb (of_Z 0) x = true /\ fltb x (of_Z (n - 1)) = true.

(** The coordinate rounds to [c / 100] at two decimals. *)
Definition approx2 (c : Z) (g : num) : bool :=
  between (dec (10 * c - 5) 3) (dec (10 * c + 5) 3) g.

(** The row decoded from the [j]-th 112-byte record of a payload. *)
Definition decoded (tlvData : bytes) (j : nat) : Track :=
  row_of (default [] (unpack_I27f (slice tlvData (targetSize * j) (targetSize * S j)))).

Module Examples.

Definition f32 (w : Z) : bytes := le_bytes 4 w.
Definition u32 (z : Z) : bytes := le_bytes 4 z.
Definition zeros (n : nat) : bytes := replicate n x00.

(** A 112-byte track record: id, posX, posY, 24 zero fields, confidence
    (the float fields given by their single-precision bit patterns). *)
Definition record (id x y c : Z) : bytes :=
  u32 id ++ f32 x ++ f32 y ++ zeros (4 * 24) ++ f32 c.

Definition bits_3_0 : Z := 0x40400000.
Definition bits_50_0 : Z := 0x42480000.
Definition bits_0_9 : Z := 0x3F666666.
Definition bits_0_5 : Z := 0x3F000000.
Definition bits_0_4999 : Z := 0x3EFFF2E5.

(** id 7 at (3.0, 50.0) with confidence 0.9 *)
Definition record7 : bytes := record 7 bits_3_0 bits_50_0 bits_0_9.

Definition header (totalPacketLen numTLVs : Z) : bytes :=
  MAGIC_WORD ++ u32 0 ++ u32 totalPacketLen ++ u32 0 ++ u32 1 ++ u32 0
             ++ u32 1 ++ u32 numTLVs ++ u32 0.

Definition tlv (tlvType tlvLength : Z) (payload : bytes) : bytes :=
  u32 tlvType ++ u32 tlvLength ++ payload.

(** One track TLV of length 112 holding [record7]: 160 bytes. *)
Definition frame7 : bytes := header 160 1 ++ tlv 1010 112 record7.

(** The same frame whose TLV declares 120 bytes, 8 more than the frame
    holds. *)
Definition frame_overrun : bytes := header 160 2 ++ tlv 1010 120 record7.

(** The marker pattern followed by a length field of zero, as it can
    occur inside payload bytes, then 24 more payload bytes. *)
Definition false_marker : bytes := MAGIC_WORD ++ u32 0 ++ u32 0 ++ zeros 24.

(** The default values of the front end's spin boxes. *)
Definition cfg_default : Cfg :=
  mkCfg (of_Z (-12)) (of_Z 12) (of_Z 0) (of_Z 120) (of_Z 1) (of_Z 5).

(** A request with [dx = 0] and other bounds. *)
Definition cfg_dx0 : Cfg :=
  mkCfg (of_Z 0) (of_Z 10) (of_Z 0) (of_Z 10) (of_Z 0) (of_Z 1).

Definition configured : GridBackend := fst (create_grid init cfg_default).

Definition nan_row (i : nat) : Track :=
  let n := S754_nan in mkTrack n n n n n n n n n n n n.

Definition track_of (rec : bytes) : Track := row_of (default [] (unpack_I27f rec)).

Definition track7 : Track := track_of record7.

(** Confidence exactly 0.5, and the single nearest to 0.4999. *)
Definition track_0_5 : Track := track_of (record 1 bits_3_0 bits_50_0 bits_0_5).
Definition track_0_4999 : Track := track_of (record 2 bits_3_0 bits_50_0 bits_0_4999).

(** A track at (1000.0, -5.0), outside the configured area. *)
Definition track_outside : Track := track_of (record 9 0x447A0000 0xC0A00000 bits_0_9).

(** A request whose cell is wider than the area: [nx] comes out as 0. *)
Definition cfg_dx100 : Cfg :=
  mkCfg (of_Z (-12)) (of_Z 12) (of_Z 0) (of_Z 120) (of_Z 100) (of_Z 5).

(** The point that the track of [record7] maps to under [cfg_default]:
    grid (14.375, 115/12), real (3.0, 50.0). *)
Definition point7 : Point :=
  mkPoint (NFloat (dec 14375 3)) (NFloat (fdiv (of_Z 115) (of_Z 12))) 7 (of_Z 3) (of_Z 50).

(** Everything emitted when [frame7] arrives in one read. *)
Definition end_to_end : list (list Point) :=
  (_read_from_serial_port nan_row configured [frame7] []).2.

(** The end-to-end example with the grid coordinates quoted at two
    decimals as [gx / 100] and [gy / 100]. *)
Definition end_to_end_yields (gx gy : Z) : Prop :=
  exists p, end_to_end = [[p]] /\ p_id p = 7 /\
            approx2 gx (p_x p) = true /\ approx2 gy (p_y p) = true /\
            p_x_real p = of_Z 3 /\ p_y_real p = of_Z 50.

End Examples.

(* ===================================================================== *)
(** ** The rest of the backend and the front end's slots                  *)
(* ===================================================================== *)

(** The part of the loop body that follows [buffer = buffer[magic_idx:]]. *)
Definition from_marker (buffer : bytes) : bytes * outcome :=
  if decide (length buffer < HEADER_LEN)%nat then (buffer, ShortHeader)
  else
    match header_fields (take HEADER_LEN buffer) with
    | None => (buffer, StructError)
    | Some (magic, version, totalPacketLen) =>
        if negb (magic =? 0x0708050603040102) then (drop 1 buffer, BadMagic)
        else if Z.of_nat (length buffer) <? totalPacketLen then (buffer, ShortFrame)
        else (drop (Z.to_nat totalPacketLen) buffer,
              Frame (take (Z.to_nat totalPacketLen) buffer))
    end.

(** The frame that a pass handed to the parser, empty when it handed none. *)
Definition frame_of (o : outcome) : bytes :=
  match o with
  | Frame frame_bytes => frame_bytes
  | _ => []
  end.

(** [MainWindow.update_radar_points] of [src/frontend/main_window.py]: the
    two lists given to [scatter.setData], horizontal first.  The list
    comprehensions take [p['y']] for the horizontal and [p['x']] for the
    vertical coordinates. *)
Definition update_radar_points (points : list Point) : list num * list num :=
  match points with
  | [] => ([], [])
  | _ =>
      let x_coords := (fun p => p_y p) <$> points in
      let y_coords := (fun p => p_x p) <$> points in
      (x_coords, y_coords)
  end.

(** A Python [str]: its code points. *)
Definition str := list N.

(** The characters that [str.strip()] removes (those with
    [str.isspace()] true). *)
Definition is_space (c : N) : bool :=
  ((9 <=? c) && (c <=? 13) || (28 <=? c) && (c <=? 32) || (c =? 0x85) || (c =? 0xA0)
   || (c =? 0x1680) || (0x2000 <=? c) && (c <=? 0x200A) || (c =? 0x2028)
   || (c =? 0x2029) || (c =? 0x202F) || (c =? 0x205F) || (c =? 0x3000))%N.

Fixpoint lstrip (s : str) : str :=
  match s with
  | [] => []
  | c :: rest => if is_space c then lstrip rest else s
  end.

Definition rstrip (s : str) : str := reverse (lstrip (reverse s)).

Definition strip (s : str) : str := rstrip (lstrip s).

(** [line.startswith('%')] *)
Definition startswith_percent (line : str) : bool :=
  match line with
  | c :: _ => (c =? 37)%N
  | [] => false
  end.

(** [send_config]: the commands written to the port, as strings before
    [encode('utf-8')], for the lines that iterating the configuration file
    yields.  The pauses and the echo of the replies are left out: they do
    not influence what is written. *)
Fixpoint send_config (lines : list str) : list str :=
  match lines with
  | [] => []
  | line :: rest =>
      let line := strip line in
      if (bool_decide (line = [])) || startswith_percent line then send_config rest
      else
        let cmd := line ++ [10%N] in
        cmd :: send_config rest
  end.

(** A string with no white space at either end. *)
Definition trimmed (s : str) : Prop :=
  (forall c, head s = Some c -> is_space c = false) /\
  (forall c, last s = Some c -> is_space c = false).

Module Samples.

(** Bytes that hold no marker, not even together with the start of one. *)
Definition garbage : bytes := [x00; x02; x01; x04; xff; x02].

(** A second valid frame: no TLV at all, 40 bytes. *)
Definition frame_empty : bytes := Examples.header 40 0.

(** A frame with a no-op TLV of type 1020 and 4 payload bytes before the
    track TLV: 172 bytes. *)
Definition frame_mixed : bytes :=
  Examples.header 172 2 ++ Examples.tlv 1020 4 [x01; x02; x03; x04]
                  ++ Examples.tlv 1010 112 Examples.record7.

(** 1100 bytes without a marker that end with the first five bytes of
    one, and the chunk that completes it into [Examples.frame7]. *)
Definition noise : bytes := replicate 1095 xff ++ take 5 Examples.frame7.
Definition completion : bytes := drop 5 Examples.frame7.

(** "  sensorStop \n", "% comment\n", "\n", "flushCfg\n" *)
Definition config_lines : list str :=
  [[32; 32; 115; 101; 110; 115; 111; 114; 83; 116; 111; 112; 32; 10];
   [37; 32; 99; 111; 109; 109; 101; 110; 116; 10];
   [10];
   [102; 108; 117; 115; 104; 67; 102; 103; 10]]%N.

End Samples.

(* ===================================================================== *)
(** ** Frame synchroniser                                                 *)
(* ===================================================================== *)

Section Synchroniser.

Variable uninit : nat -> Track.

Lemma find_prefix (sub buf : bytes) :
  take (length sub) buf = sub -> find sub buf = Some 0%nat.
Proof.
  intros H. destruct buf; simpl; rewrite decide_True; auto.
Qed.

Lemma find_Some (sub buf : bytes) (i : nat) :
  find sub buf = Some i -> take (length sub) (drop i buf) = sub.
Proof.
  revert i. induction buf as [|b buf IH]; intros i; simpl.
  - destruct (decide _) as [E|]; [|discriminate].
    intros [= <-]. exact E.
  - destruct (decide _) as [E|].
    + intros [= <-]. exact E.
    + destruct (find sub buf) as [j|] eqn:Hj; simpl; [|discriminate].
      intros [= <-]. simpl. apply IH. reflexivity.
Qed.

Lemma find_short (sub buf : bytes) :
  (length buf < length sub)%nat -> find sub buf = None.
Proof.
  induction buf as [|b buf IH]; intros Hlen; simpl.
  - rewrite decide_False; [reflexivity|].
    intros E. apply (f_equal length) in E. rewrite length_take in E. simpl in *. lia.
  - rewrite decide_False.
    + rewrite IH; [reflexivity | simpl in Hlen; lia].
    + intros E. apply (f_equal length) in E. rewrite length_take in E. simpl in *. lia.
Qed.

(** The three fields kept from a buffer that holds a whole header. *)
Lemma header_fields_take (buffer : bytes) :
  (HEADER_LEN <= length buffer)%nat ->
  header_fields (take HEADER_LEN buffer)
  = Some (le_uint (take 8 buffer), le_uint (slice buffer 8 12), declared_len buffer).
Proof.
  intros Hlen. unfold header_fields, unpack_Q8I, declared_len, slice, HEADER_LEN in *.
  rewrite decide_True by (rewrite length_take; lia).
  cbn [words]. rewrite !drop_drop, !take_drop_commute, !take_take.
  reflexivity.
Qed.

Lemma le_uint_MAGIC_WORD : le_uint MAGIC_WORD = 0x0708050603040102.
Proof. reflexivity. Qed.

Lemma sync_buffer_found (buffer : bytes) (magic_idx : nat) :
  find MAGIC_WORD buffer = Some magic_idx ->
  (HEADER_LEN <= length (drop magic_idx buffer))%nat ->
  sync_buffer buffer = at_marker (drop magic_idx buffer).
Proof.
  intros Hfind Hlen. unfold sync_buffer. rewrite Hfind. cbv zeta.
  rewrite decide_False by lia.
  rewrite header_fields_take by exact Hlen.
  apply find_Some in Hfind. change (length MAGIC_WORD) with 8%nat in Hfind.
  rewrite Hfind, le_uint_MAGIC_WORD. reflexivity.
Qed.

Lemma sync_buffer_never_BadMagic (buffer : bytes) :
  snd (sync_buffer buffer) <> BadMagic.
Proof.
  unfold sync_buffer.
  destruct (find MAGIC_WORD buffer) as [i|] eqn:Hfind; [|discriminate].
  cbv zeta. destruct (decide _) as [Hshort|Hlong]; [discriminate|].
  rewrite header_fields_take by lia.
  apply find_Some in Hfind. change (length MAGIC_WORD) with 8%nat in Hfind.
  rewrite Hfind, le_uint_MAGIC_WORD. cbn [negb Z.eqb Pos.eqb].
  destruct (_ <? _); discriminate.
Qed.

(** A valid frame whose marker is the first one in the buffer is cut out
    exactly. *)
Lemma sync_buffer_valid_frame (pre f rest : bytes) :
  valid_frame f ->
  find MAGIC_WORD (pre ++ f ++ rest) = Some (length pre) ->
  sync_buffer (pre ++ f ++ rest) = (rest, Frame f).
Proof.
  intros (Hmagic & Hlen & Hdecl) Hfind. unfold HEADER_LEN in *.
  rewrite (sync_buffer_found _ _ Hfind);
    rewrite drop_app_length; [|unfold HEADER_LEN; rewrite length_app; lia].
  unfold at_marker.
  assert (declared_len (f ++ rest) = Z.of_nat (length f)) as ->.
  { rewrite <- Hdecl. unfold declared_len, slice.
    rewrite !take_drop_commute, take_app_le by lia. reflexivity. }
  rewrite length_app, Nat2Z.id.
  rewrite (proj2 (Z.ltb_ge _ _)) by lia.
  rewrite drop_app_length, take_app_length. reflexivity.
Qed.

(** A proper prefix of a valid frame is kept whole, and no frame comes
    out of it. *)
Lemma sync_buffer_partial (f buffer rest : bytes) :
  valid_frame f -> buffer ++ rest = f -> (length buffer < length f)%nat ->
  exists o, sync_buffer buffer = (buffer, o) /\ frames_of [o] = [].
Proof.
  intros (Hmagic & Hlen & Hdecl) Hsplit Hshort. unfold HEADER_LEN in *.
  destruct (decide (length buffer < 8)%nat) as [H8|H8].
  - exists NoMagic. split; [|reflexivity].
    unfold sync_buffer. rewrite find_short by (simpl; lia).
    rewrite decide_False by lia. reflexivity.
  - assert (find MAGIC_WORD buffer = Some 0%nat) as Hfind.
    { apply find_prefix. change (length MAGIC_WORD) with 8%nat.
      rewrite <- Hmagic, <- Hsplit, take_app_le by lia. reflexivity. }
    destruct (decide (length buffer < 40)%nat) as [H40|H40].
    + exists ShortHeader. split; [|reflexivity].
      unfold sync_buffer. rewrite Hfind. cbv zeta. rewrite drop_0.
      rewrite decide_True by (unfold HEADER_LEN; lia). reflexivity.
    + exists ShortFrame. split; [|reflexivity].
      rewrite (sync_buffer_found _ _ Hfind); rewrite drop_0; [|unfold HEADER_LEN; lia].
      unfold at_marker.
      assert (declared_len buffer = Z.of_nat (length f)) as ->.
      { rewrite <- Hdecl, <- Hsplit. unfold declared_len, slice.
        rewrite !take_drop_commute, take_app_le by lia. reflexivity. }
      rewrite (proj2 (Z.ltb_lt _ _)) by lia. reflexivity.
Qed.

Lemma parse_standard_frame_nil (self : GridBackend) :
  parse_standard_frame uninit self [] = [].
Proof. reflexivity. Qed.

(** With nothing buffered and nothing arriving the loop idles. *)
Lemma read_idle (self : GridBackend) (reads : list bytes) :
  concat reads = [] ->
  _read_from_serial_port uninit self reads []
  = ([], replicate (length reads) NoMagic, []).
Proof.
  induction reads as [|chunk reads IH]; intros Hnil; [reflexivity|].
  simpl in Hnil. apply app_eq_nil in Hnil as [-> Hnil].
  cbn [_read_from_serial_port]. unfold iteration.
  change (sync_buffer ([] ++ [])) with (@nil byte, NoMagic).
  cbv iota beta. rewrite IH by exact Hnil. reflexivity.
Qed.

(** A header that declares a total length of zero: every pass cuts out
    an empty frame and leaves the buffer as it is. *)
Lemma read_stuck (self : GridBackend) (reads : list bytes) (buffer : bytes) :
  take 8 buffer = MAGIC_WORD -> (HEADER_LEN <= length buffer)%nat ->
  declared_len buffer = 0 ->
  _read_from_serial_port uninit self reads buffer
  = (buffer ++ concat reads, replicate (length reads) (Frame []), []).
Proof.
  revert buffer. induction reads as [|chunk reads IH]; intros buffer Hmagic Hlen Hdecl.
  - simpl. rewrite app_nil_r. reflexivity.
  - unfold HEADER_LEN in *.
    assert (take 8 (buffer ++ chunk) = MAGIC_WORD) as Hmagic'
      by (rewrite take_app_le by lia; exact Hmagic).
    assert (declared_len (buffer ++ chunk) = 0) as Hdecl'.
    { rewrite <- Hdecl. unfold declared_len, slice.
      rewrite !take_drop_commute, take_app_le by lia. reflexivity. }
    assert (sync_buffer (buffer ++ chunk) = (buffer ++ chunk, Frame [])) as Hstep.
    { rewrite (sync_buffer_found _ 0%nat).
      - rewrite drop_0. unfold at_marker. rewrite Hdecl'.
        rewrite (proj2 (Z.ltb_ge _ _)) by lia. reflexivity.
      - apply find_prefix. exact Hmagic'.
      - rewrite drop_0, length_app. unfold HEADER_LEN. lia. }
    cbn [_read_from_serial_port]. unfold iteration. rewrite Hstep.
    rewrite IH; [| exact Hmagic' | rewrite length_app; unfold HEADER_LEN; lia | exact Hdecl'].
    rewrite parse_standard_frame_nil. cbn. rewrite <- app_assoc. reflexivity.
Qed.

Lemma frames_of_cons (o : outcome) (os : list outcome) :
  frames_of (o :: os) = frames_of [o] ++ frames_of os.
Proof. destruct o; reflexivity. Qed.

Lemma frames_of_replicate_empty (n : nat) :
  frames_of (replicate n (Frame [])) = replicate n [].
Proof. induction n as [|n IH]; [reflexivity|]. simpl. rewrite <- IH. reflexivity. Qed.

Lemma frames_of_replicate_NoMagic (n : nat) :
  frames_of (replicate n NoMagic) = [].
Proof. induction n as [|n IH]; [reflexivity|]. exact IH. Qed.

Lemma read_never_BadMagic (self : GridBackend) (reads : list bytes) (buffer : bytes) :
  BadMagic ∉ (_read_from_serial_port uninit self reads buffer).1.2.
Proof.
  revert buffer. induction reads as [|chunk reads IH]; intros buffer.
  - simpl. apply not_elem_of_nil.
  - cbn [_read_from_serial_port]. unfold iteration.
    pose proof (sync_buffer_never_BadMagic (buffer ++ chunk)) as Hne.
    destruct (sync_buffer (buffer ++ chunk)) as [buffer' o]. simpl in Hne.
    assert (forall out, BadMagic ∉
              (let '(buffer0, os, outs) := _read_from_serial_port uninit self reads buffer' in
               (buffer0, o :: os, out ++ outs)).1.2) as Hall.
    { intros out. specialize (IH buffer').
      destruct (_read_from_serial_port uninit self reads buffer') as [[b os] outs].
      simpl in *. apply not_elem_of_cons. split; [congruence | exact IH]. }
    destruct o; apply Hall.
Qed.

(** Delivery of a valid frame in pieces, from a buffer that holds a
    proper prefix of it. *)
Lemma read_partial (self : GridBackend) (f : bytes) :
  valid_frame f ->
  forall (reads : list bytes) (buffer : bytes),
    buffer ++ concat reads = f -> (length buffer < length f)%nat ->
    exists os, _read_from_serial_port uninit self reads buffer
               = ([], os, parse_standard_frame uninit self f)
               /\ frames_of os = [f].
Proof.
  intros Hv. induction reads as [|chunk reads IH]; intros buffer Hsplit Hshort.
  - simpl in Hsplit. rewrite app_nil_r in Hsplit. subst. lia.
  - simpl in Hsplit. rewrite app_assoc in Hsplit.
    cbn [_read_from_serial_port]. unfold iteration.
    destruct (decide (length (buffer ++ chunk) < length f)%nat) as [Hlt|Hge].
    + destruct (sync_buffer_partial f _ _ Hv Hsplit Hlt) as (o & Hstep & Ho).
      rewrite Hstep. destruct (IH _ Hsplit Hlt) as (os & Hrun & Hos).
      exists (o :: os). rewrite frames_of_cons, Ho, Hos. split; [|reflexivity].
      destruct o; try discriminate Ho; rewrite Hrun; reflexivity.
    + assert (length (buffer ++ chunk) + length (concat reads) = length f)%nat as Hlen
        by (rewrite <- Hsplit, (length_app (buffer ++ chunk)); reflexivity).
      assert (concat reads = []) as Hnil by (apply nil_length_inv; lia).
      rewrite Hnil, app_nil_r in Hsplit. rewrite Hsplit.
      assert (find MAGIC_WORD ([] ++ f ++ []) = Some (length (@nil byte))) as Hfind
        by (apply find_prefix; rewrite app_nil_r; apply Hv).
      pose proof (sync_buffer_valid_frame [] f [] Hv Hfind) as Hstep.
      simpl in Hstep. rewrite app_nil_r in Hstep. rewrite Hstep.
      rewrite (read_idle self reads Hnil).
      exists (Frame f :: replicate (length reads) NoMagic).
      rewrite frames_of_cons, frames_of_replicate_NoMagic, app_nil_r.
      split; reflexivity.
Qed.

End Synchroniser.

(** C6: whenever the byte-wise search finds the marker and at least 40
    bytes follow it, the u64 decoded from the header is always
    0x0708050603040102; the branch that drops one byte and retries is
    never taken, neither in one pass nor anywhere in a run of the loop. *)
Theorem magic_mismatch_unreachable
        (uninit : nat -> Track) (self : GridBackend) (buffer : bytes) (magic_idx : nat) :
  find MAGIC_WORD buffer = Some magic_idx ->
  (HEADER_LEN <= length (drop magic_idx buffer))%nat ->
  (exists version totalPacketLen,
      header_fields (take HEADER_LEN (drop magic_idx buffer))
      = Some (0x0708050603040102, version, totalPacketLen)) /\
  snd (sync_buffer buffer) <> BadMagic /\
  forall reads, BadMagic ∉ (_read_from_serial_port uninit self reads buffer).1.2.
Proof.
  intros Hfind Hlen. split; [|split].
  - rewrite header_fields_take by exact Hlen.
    apply find_Some in Hfind. change (length MAGIC_WORD) with 8%nat in Hfind.
    rewrite Hfind. eauto.
  - apply sync_buffer_never_BadMagic.
  - intros reads. apply read_never_BadMagic.
Qed.

Lemma magic_mismatch_unreachable_witness :
  let buffer := x00 :: Examples.frame7 in
  find MAGIC_WORD buffer = Some 1%nat /\
  (HEADER_LEN <= length (drop 1 buffer))%nat /\
  snd (sync_buffer buffer) <> BadMagic.
Proof.
  assert (find MAGIC_WORD (x00 :: Examples.frame7) = Some 1%nat) as Hfind
    by (vm_compute; reflexivity).
  assert (HEADER_LEN <= length (drop 1 (x00 :: Examples.frame7)))%nat as Hlen
    by (vm_compute; lia).
  split; [exact Hfind | split; [exact Hlen |]].
  exact (proj1 (proj2 (magic_mismatch_unreachable
                         Examples.nan_row Examples.configured _ _ Hfind Hlen))).
Defined.

(** C7: the declared total length is never compared with the 40-byte
    header length.  For a buffer that begins with the marker and a header
    declaring a total length of 0, every pass cuts out an empty frame and
    leaves the buffer unchanged: whatever arrives later is only appended,
    nothing is consumed from the front, and no valid frame ever comes out. *)
Theorem zero_length_header_stalls
        (uninit : nat -> Track) (self : GridBackend) (buffer : bytes) (reads : list bytes) :
  take 8 buffer = MAGIC_WORD ->
  (HEADER_LEN <= length buffer)%nat ->
  declared_len buffer = 0 ->
  sync_buffer buffer = (buffer, Frame []) /\
  _read_from_serial_port uninit self reads buffer
  = (buffer ++ concat reads, replicate (length reads) (Frame []), []) /\
  forall f, valid_frame f ->
            f ∉ frames_of (_read_from_serial_port uninit self reads buffer).1.2.
Proof.
  intros Hmagic Hlen Hdecl. split; [|split].
  - pose proof (read_stuck uninit self [[]] buffer Hmagic Hlen Hdecl) as Hrun.
    cbn [_read_from_serial_port] in Hrun. unfold iteration in Hrun.
    rewrite app_nil_r in Hrun.
    destruct (sync_buffer buffer) as [b o]. destruct o; simpl in Hrun.
    all: rewrite ?app_nil_r in Hrun; congruence.
  - apply read_stuck; assumption.
  - intros f (_ & Hflen & _) Hin.
    rewrite (read_stuck uninit self reads buffer Hmagic Hlen Hdecl) in Hin.
    simpl in Hin. rewrite frames_of_replicate_empty in Hin.
    apply elem_of_replicate_inv in Hin. subst f. unfold HEADER_LEN in Hflen.
    simpl in Hflen. lia.
Qed.

Lemma zero_length_header_stalls_witness :
  let buffer := Examples.false_marker ++ Examples.frame7 in
  let reads := [[]; Examples.frame7] in
  take 8 buffer = MAGIC_WORD /\
  (HEADER_LEN <= length buffer)%nat /\
  declared_len buffer = 0 /\
  _read_from_serial_port Examples.nan_row Examples.configured reads buffer
  = (buffer ++ concat reads, replicate (length reads) (Frame []), []).
Proof.
  assert (take 8 (Examples.false_marker ++ Examples.frame7) = MAGIC_WORD) as H1
    by (vm_compute; reflexivity).
  assert (HEADER_LEN <= length (Examples.false_marker ++ Examples.frame7))%nat as H2
    by (vm_compute; lia).
  assert (declared_len (Examples.false_marker ++ Examples.frame7) = 0) as H3
    by (vm_compute; reflexivity).
  split; [exact H1 | split; [exact H2 | split; [exact H3 |]]].
  exact (proj1 (proj2 (zero_length_header_stalls
                         Examples.nan_row Examples.configured _
                         [[]; Examples.frame7] H1 H2 H3))).
Defined.

(** C10: a valid frame delivered to the loop in arbitrary pieces (empty
    reads and single bytes included) comes out exactly once, identical to
    the frame that comes out when the same bytes arrive in one read; the
    buffer is empty afterwards and the same points are emitted. *)
Theorem partial_delivery
        (uninit : nat -> Track) (self : GridBackend) (f : bytes) (reads : list bytes) :
  valid_frame f ->
  concat reads = f ->
  let pieces := _read_from_serial_port uninit self reads [] in
  let whole := _read_from_serial_port uninit self [f] [] in
  frames_of pieces.1.2 = [f] /\ frames_of whole.1.2 = [f] /\
  pieces.1.1 = [] /\ whole.1.1 = [] /\
  pieces.2 = whole.2.
Proof.
  intros Hv Hcat.
  assert (length (@nil byte) < length f)%nat as Hpos
    by (destruct Hv as (_ & Hlen & _); unfold HEADER_LEN in Hlen; simpl; lia).
  destruct (read_partial uninit self f Hv reads [] Hcat Hpos) as (os & Hrun & Hos).
  assert ([] ++ concat [f] = f) as Hone by (simpl; apply app_nil_r).
  destruct (read_partial uninit self f Hv [f] [] Hone Hpos) as (os' & Hrun' & Hos').
  cbv zeta. rewrite Hrun, Hrun'. simpl. auto.
Qed.

Lemma partial_delivery_witness :
  let f := Examples.frame7 in
  let reads := (fun b => [b]) <$> f in
  valid_frame f /\ concat reads = f /\
  frames_of (_read_from_serial_port Examples.nan_row Examples.configured reads []).1.2 = [f].
Proof.
  assert (valid_frame Examples.frame7) as Hv
    by (repeat apply conj; vm_compute; try reflexivity; lia).
  assert (concat ((fun b => [b]) <$> Examples.frame7) = Examples.frame7) as Hcat
    by (vm_compute; reflexivity).
  split; [exact Hv | split; [exact Hcat |]].
  exact (proj1 (partial_delivery Examples.nan_row Examples.configured _ _ Hv Hcat)).
Defined.

(** C2, as stated, fails: a marker pattern lying in payload bytes, here
    followed by a zero length field, and then a valid frame; no number of
    passes and no further deliveries ever return the valid frame. *)
Lemma false_marker_blocks_valid_frame :
  valid_frame Examples.frame7 /\
  ~ exists reads,
      Examples.frame7 ∈
        frames_of (_read_from_serial_port Examples.nan_row Examples.configured reads
                     (Examples.false_marker ++ Examples.frame7)).1.2.
Proof.
  split; [repeat apply conj; vm_compute; try reflexivity; lia|].
  intros [reads Hin].
  rewrite read_stuck in Hin;
    [| vm_compute; reflexivity | vm_compute; lia | vm_compute; reflexivity].
  simpl in Hin. rewrite frames_of_replicate_empty in Hin.
  apply elem_of_replicate_inv in Hin. discriminate Hin.
Qed.

(** C2 (amended): the first occurrence of the marker pattern is taken as
    the start of a frame, incidental or not.  With a whole header behind
    it the magic check passes and only the length field found 12 bytes
    after it decides: no frame while fewer bytes than declared are
    buffered, otherwise exactly that many bytes.  A valid frame is
    therefore returned whenever its own marker is the first occurrence in
    the buffer. *)
Theorem first_marker_is_frame_start (buffer : bytes) (magic_idx : nat) :
  find MAGIC_WORD buffer = Some magic_idx ->
  (HEADER_LEN <= length (drop magic_idx buffer))%nat ->
  sync_buffer buffer = at_marker (drop magic_idx buffer) /\
  forall f rest, valid_frame f -> drop magic_idx buffer = f ++ rest ->
                 sync_buffer buffer = (rest, Frame f).
Proof.
  intros Hfind Hlen. split; [apply sync_buffer_found; assumption|].
  intros f rest Hv Hdrop.
  assert (magic_idx <= length buffer)%nat as Hidx
    by (rewrite length_drop in Hlen; unfold HEADER_LEN in Hlen; lia).
  assert (buffer = take magic_idx buffer ++ f ++ rest) as Hbuf
    by (rewrite <- Hdrop, take_drop; reflexivity).
  rewrite Hbuf. apply sync_buffer_valid_frame; [exact Hv|].
  rewrite <- Hbuf, length_take_le by exact Hidx. exact Hfind.
Qed.

Lemma first_marker_is_frame_start_witness :
  let buffer := [x00; x02] ++ Examples.frame7 ++ [x01] in
  find MAGIC_WORD buffer = Some 2%nat /\
  (HEADER_LEN <= length (drop 2 buffer))%nat /\
  sync_buffer buffer = ([x01], Frame Examples.frame7).
Proof.
  assert (find MAGIC_WORD ([x00; x02] ++ Examples.frame7 ++ [x01]) = Some 2%nat) as Hfind
    by (vm_compute; reflexivity).
  assert (HEADER_LEN <= length (drop 2 ([x00; x02] ++ Examples.frame7 ++ [x01])))%nat as Hlen
    by (vm_compute; lia).
  split; [exact Hfind | split; [exact Hlen |]].
  apply (proj2 (first_marker_is_frame_start _ _ Hfind Hlen)).
  - repeat apply conj; vm_compute; try reflexivity; lia.
  - reflexivity.
Defined.

(* ===================================================================== *)
(** ** Grid coordinate mapper                                             *)
(* ===================================================================== *)

Section Mapper.

Lemma fltb_fleb (x y : float) : fltb x y = true -> fleb x y = true.
Proof.
  unfold fltb, fleb, SFltb, SFleb.
  destruct (SFcompare x y) as [[ | | ]| ]; intros H; try discriminate; reflexivity.
Qed.

Lemma clamp_cases (n : Z) (x : float) :
  clamped n (py_max (NInt 0) (py_min (NInt (n - 1)) (NFloat x))).
Proof.
  unfold clamped, py_max, py_min. cbn [num_ltb].
  destruct (fltb x (of_Z (n - 1))) eqn:Hhi; cbn [num_ltb].
  - destruct (fltb (of_Z 0) x) eqn:Hlo; eauto 7.
  - destruct (0 <? n - 1); auto.
Qed.

Lemma clamped_bounds (n : Z) (g : num) :
  0 < n -> clamped n g ->
  num_leb (NInt 0) g = true /\ num_leb g (NInt (n - 1)) = true.
Proof.
  intros Hn [-> | [-> | (x & -> & Hlo & Hhi)]]; cbn [num_leb].
  - split; apply Z.leb_le; lia.
  - split; apply Z.leb_le; lia.
  - split; apply fltb_fleb; assumption.
Qed.

Lemma rescale_point_spec (self : GridBackend) (t : Track) (p : Point) :
  rescale_point self t = Some p ->
  clamped (nx self) (p_x p) /\ clamped (ny self) (p_y p) /\
  py_int (tid t) = Some (p_id p) /\
  p_x_real p = posX t /\ p_y_real p = posY t.
Proof.
  unfold rescale_point. destruct (py_int (tid t)) as [target_id|]; [|discriminate].
  intros [= <-]. cbn [p_x p_y p_id p_x_real p_y_real].
  repeat split; apply clamp_cases.
Qed.

Lemma rescale_loop_spec (self : GridBackend) (targets : list Track) (pts : list Point) :
  rescale_loop self targets = Some pts ->
  Forall2 (fun t p => rescale_point self t = Some p) targets pts.
Proof.
  revert pts. induction targets as [|t targets IH]; intros pts; simpl.
  - intros [= <-]. constructor.
  - destruct (rescale_point self t) as [p|] eqn:Hp; [|discriminate].
    destruct (rescale_loop self targets) as [ps|]; [|discriminate].
    intros [= <-]. constructor; [exact Hp | apply IH; reflexivity].
Qed.

Lemma emit_spec (self : GridBackend) (targets : list Track) (pts : list Point) :
  rescale_and_emit_points self targets = Emit pts ->
  rescale_loop self (confidence_filter targets) = Some pts /\
  confidence_filter targets <> [] /\ nx self <> 0 /\ ny self <> 0.
Proof.
  unfold rescale_and_emit_points.
  destruct (decide (length targets = 0%nat)); [discriminate|].
  destruct (decide (length (confidence_filter targets) = 0%nat)) as [|Hne]; [discriminate|].
  destruct (nx self =? 0) eqn:Hx; [discriminate|].
  destruct (ny self =? 0) eqn:Hy; [discriminate|]. cbn [orb].
  destruct (rescale_loop self (confidence_filter targets)) as [ps|]; [|discriminate].
  intros [= <-]. repeat split.
  - intros E. rewrite E in Hne. apply Hne. reflexivity.
  - apply Z.eqb_neq. exact Hx.
  - apply Z.eqb_neq. exact Hy.
Qed.

End Mapper.

(** C8: the confidence filter keeps a track if and only if its confidence
    is [>= 0.5]; the points emitted are computed from the kept tracks only,
    in order.  A track with confidence exactly 0.5 is kept and mapped, one
    with confidence 0.4999 is dropped and nothing is emitted for it. *)
Theorem confidence_filter_threshold (self : GridBackend) (targets : list Track) :
  (forall t, In t (confidence_filter targets) <-> In t targets /\ fleb half (conf t) = true) /\
  (forall pts, rescale_and_emit_points self targets = Emit pts <->
               targets <> [] /\ confidence_filter targets <> [] /\
               nx self <> 0 /\ ny self <> 0 /\
               rescale_loop self (confidence_filter targets) = Some pts) /\
  confidence_filter [Examples.track_0_5] = [Examples.track_0_5] /\
  confidence_filter [Examples.track_0_4999] = [] /\
  (exists p, rescale_and_emit_points Examples.configured [Examples.track_0_5] = Emit [p]) /\
  rescale_and_emit_points Examples.configured [Examples.track_0_4999] = NoEmit.
Proof.
  split; [|split; [|split; [|split; [|split]]]].
  - intros t. unfold confidence_filter. apply filter_In.
  - intros pts. split.
    + intros Hemit. destruct (emit_spec _ _ _ Hemit) as (Hloop & Hne & Hx & Hy).
      repeat split; try assumption.
      intros ->. apply Hne. reflexivity.
    + intros (Hne & Hfne & Hx & Hy & Hloop). unfold rescale_and_emit_points.
      rewrite decide_False by (destruct targets; [congruence | discriminate]).
      rewrite decide_False
        by (destruct (confidence_filter targets); [congruence | discriminate]).
      rewrite (proj2 (Z.eqb_neq _ _) Hx), (proj2 (Z.eqb_neq _ _) Hy). cbn [orb].
      rewrite Hloop. reflexivity.
  - vm_compute. reflexivity.
  - vm_compute. reflexivity.
  - eexists. vm_compute. reflexivity.
  - vm_compute. reflexivity.
Qed.

(** C9: with an active configuration ([nx > 0] and [ny > 0]) every emitted
    point has [0 <= gridX <= nx - 1] and [0 <= gridY <= ny - 1], wherever
    the real-world position lies: each coordinate is the [int] 0, the [int]
    extent minus one, or a float strictly between them, so it is never
    negative and never reaches the extent. *)
Theorem grid_coordinates_clamped
        (self : GridBackend) (targets : list Track) (pts : list Point) :
  0 < nx self -> 0 < ny self ->
  rescale_and_emit_points self targets = Emit pts ->
  Forall (fun p =>
            num_leb (NInt 0) (p_x p) = true /\ num_leb (p_x p) (NInt (nx self - 1)) = true /\
            num_leb (NInt 0) (p_y p) = true /\ num_leb (p_y p) (NInt (ny self - 1)) = true /\
            clamped (nx self) (p_x p) /\ clamped (ny self) (p_y p)) pts.
Proof.
  intros Hnx Hny Hemit. apply emit_spec in Hemit as (Hloop & _).
  apply rescale_loop_spec in Hloop.
  induction Hloop as [|t p ts ps Hp _ IH]; constructor; [|exact IH].
  apply rescale_point_spec in Hp as (Hx & Hy & _).
  destruct (clamped_bounds _ _ Hnx Hx) as [Hx0 Hx1].
  destruct (clamped_bounds _ _ Hny Hy) as [Hy0 Hy1].
  auto 10.
Qed.

Lemma grid_coordinates_clamped_witness :
  let self := Examples.configured in
  let targets := [Examples.track_outside; Examples.track7] in
  0 < nx self /\ 0 < ny self /\
  exists p q,
    rescale_and_emit_points self targets = Emit [p; q] /\
    p_x p = NInt 23 /\ p_y p = NInt 0 /\
    Forall (fun p =>
              num_leb (NInt 0) (p_x p) = true /\ num_leb (p_x p) (NInt (nx self - 1)) = true /\
              num_leb (NInt 0) (p_y p) = true /\ num_leb (p_y p) (NInt (ny self - 1)) = true /\
              clamped (nx self) (p_x p) /\ clamped (ny self) (p_y p)) [p; q].
Proof.
  assert (0 < nx Examples.configured) as Hnx by (vm_compute; reflexivity).
  assert (0 < ny Examples.configured) as Hny by (vm_compute; reflexivity).
  split; [exact Hnx | split; [exact Hny |]].
  eexists _, _.
  assert (rescale_and_emit_points Examples.configured
            [Examples.track_outside; Examples.track7] = Emit _) as Hemit
    by (vm_compute; reflexivity).
  split; [exact Hemit | split; [reflexivity | split; [reflexivity |]]].
  exact (grid_coordinates_clamped _ _ _ Hnx Hny Hemit).
Defined.

(* ===================================================================== *)
(** ** Track record decoder and TLV dispatcher                            *)
(* ===================================================================== *)

Section Decoder.

Variable uninit : nat -> Track.

Lemma unpack_I27f_short (data : bytes) :
  (length data < targetSize)%nat -> unpack_I27f (take targetSize data) = None.
Proof.
  intros Hlen. unfold unpack_I27f, targetSize in *.
  rewrite decide_False; [reflexivity|]. rewrite length_take. lia.
Qed.

Lemma unpack_I27f_long (data : bytes) :
  (targetSize <= length data)%nat ->
  exists targetData, unpack_I27f (take targetSize data) = Some targetData.
Proof.
  intros Hlen. unfold unpack_I27f, targetSize in *.
  rewrite decide_True; [eauto|]. rewrite length_take. lia.
Qed.

Lemma decoded_0 (data : bytes) :
  decoded data 0 = row_of (default [] (unpack_I27f (take targetSize data))).
Proof. reflexivity. Qed.

Lemma decoded_S (data : bytes) (j : nat) :
  decoded (drop targetSize data) j = decoded data (S j).
Proof.
  unfold decoded, slice. rewrite drop_drop. unfold targetSize.
  do 3 f_equal. f_equal; [lia | f_equal; lia].
Qed.

(** The loop of [parse_track_tlv] when exactly [k] whole records are
    available to the [r] iterations asked for: the first [k] rows from
    index [i] are written, and the flag tells whether all [r] were. *)
Lemma fill_targets_spec (k : nat) :
  forall (r i : nat) (targets : list Track) (data : bytes),
    (k <= r)%nat -> (i + r <= length targets)%nat ->
    (targetSize * k <= length data)%nat ->
    ((k < r)%nat -> (length data < targetSize * S k)%nat) ->
    fill_targets r i targets data
    = (bool_decide (k = r),
       take i targets ++ (decoded data <$> seq 0 k) ++ drop (i + k) targets).
Proof.
  induction k as [|k IH]; intros r i targets data Hkr Hroom Hhave Hstop.
  - cbn [seq fmap list_fmap app]. rewrite Nat.add_0_r, take_drop.
    destruct r as [|r]; [reflexivity|].
    cbn [fill_targets]. rewrite unpack_I27f_short; [reflexivity|].
    specialize (Hstop ltac:(lia)). unfold targetSize in *. lia.
  - destruct r as [|r]; [lia|].
    destruct (unpack_I27f_long data) as [targetData Hunpack];
      [unfold targetSize in *; lia|].
    cbn [fill_targets]. rewrite Hunpack.
    rewrite (IH r (S i)).
    + f_equal.
      * apply bool_decide_ext. lia.
      * assert (i < length targets)%nat as Hi by lia.
        rewrite (take_S_r _ _ (row_of targetData))
          by (apply list_lookup_insert_eq; exact Hi).
        rewrite take_insert_ge by lia.
        rewrite drop_insert_lt by lia.
        rewrite <- app_assoc. f_equal. cbn [seq fmap list_fmap app].
        rewrite decoded_0, Hunpack. cbn [default]. f_equal.
        replace (S i + k)%nat with (i + S k)%nat by lia. f_equal.
        rewrite <- fmap_S_seq, <- list_fmap_compose.
        apply list_fmap_ext. intros _ j _. apply decoded_S.
    + lia.
    + rewrite length_insert. lia.
    + rewrite length_drop. unfold targetSize in *. lia.
    + intros Hlt. rewrite length_drop. specialize (Hstop ltac:(lia)).
      unfold targetSize in *. lia.
Qed.

(** [parse_track_tlv] when the [k]-th record (0-based) is the first one
    that the payload does not hold in full. *)
Lemma parse_track_tlv_truncated (tlvData : bytes) (tlvLength : Z) (n k : nat) :
  py_int (fdiv (of_Z tlvLength) (of_Z (Z.of_nat targetSize))) = Some (Z.of_nat n) ->
  (k < n)%nat ->
  (targetSize * k <= length tlvData < targetSize * S k)%nat ->
  parse_track_tlv uninit tlvData tlvLength
  = Some (0, (decoded tlvData <$> seq 0 k) ++ (uninit <$> seq k (n - k))).
Proof.
  intros Hcount Hk [Hhave Hstop]. unfold parse_track_tlv.
  rewrite Hcount, Nat2Z.id.
  rewrite (fill_targets_spec k n 0); [| lia | | exact Hhave | intros _; exact Hstop].
  - rewrite bool_decide_false by lia. cbn [take app].
    unfold np_empty. rewrite <- fmap_drop, drop_seq. reflexivity.
  - unfold np_empty. rewrite length_fmap, length_seq. lia.
Qed.

(** [parse_track_tlv] when the payload holds all the records asked for. *)
Lemma parse_track_tlv_complete (tlvData : bytes) (tlvLength : Z) (n : nat) :
  py_int (fdiv (of_Z tlvLength) (of_Z (Z.of_nat targetSize))) = Some (Z.of_nat n) ->
  (targetSize * n <= length tlvData)%nat ->
  parse_track_tlv uninit tlvData tlvLength
  = Some (Z.of_nat n, decoded tlvData <$> seq 0 n).
Proof.
  intros Hcount Hhave. unfold parse_track_tlv.
  rewrite Hcount, Nat2Z.id.
  rewrite (fill_targets_spec n n 0); [| lia | | exact Hhave | lia].
  - rewrite bool_decide_true by reflexivity. cbn [take app].
    unfold np_empty. rewrite drop_ge by (rewrite length_fmap, length_seq; lia).
    rewrite app_nil_r. reflexivity.
  - unfold np_empty. rewrite length_fmap, length_seq. lia.
Qed.

(** Past the end of the frame no TLV header can be read: the loop stops. *)
Lemma tlv_loop_past_end (self : GridBackend) (frameData : bytes) (n offset : nat) :
  (length frameData <= offset)%nat -> tlv_loop uninit self frameData n offset = [].
Proof.
  intros Hpast. destruct n as [|n]; [reflexivity|].
  cbn [tlv_loop]. unfold slice. rewrite drop_ge by exact Hpast.
  rewrite take_nil. reflexivity.
Qed.

(** Two valid frames arriving in one read come out on two successive
    passes, each parsed on its own. *)
Lemma read_two_frames (self : GridBackend) (f1 f2 : bytes) :
  valid_frame f1 -> valid_frame f2 ->
  _read_from_serial_port uninit self [f1 ++ f2; []] []
  = ([], [Frame f1; Frame f2],
     parse_standard_frame uninit self f1 ++ parse_standard_frame uninit self f2).
Proof.
  intros Hv1 Hv2.
  assert (sync_buffer (f1 ++ f2) = (f2, Frame f1)) as Hstep1.
  { apply (sync_buffer_valid_frame [] f1 f2 Hv1).
    apply find_prefix. change (length MAGIC_WORD) with 8%nat.
    destruct Hv1 as (Hm & Hlen & _). unfold HEADER_LEN in Hlen.
    cbn [app]. rewrite take_app_le by lia. exact Hm. }
  assert (sync_buffer f2 = ([], Frame f2)) as Hstep2.
  { pose proof (sync_buffer_valid_frame [] f2 [] Hv2) as H.
    cbn [app length] in H. rewrite app_nil_r in H. apply H.
    apply find_prefix. apply Hv2. }
  cbn [_read_from_serial_port]. unfold iteration.
  cbn [app]. rewrite Hstep1, app_nil_r, Hstep2. rewrite app_nil_r. reflexivity.
Qed.

End Decoder.

(** C3, as stated, fails: a track TLV that declares 120 payload bytes in a
    frame that holds only 112 after the TLV header is not treated as an
    error; the 112 bytes are decoded and the point is emitted. *)
Lemma overrun_tlv_is_processed :
  let f := Examples.frame_overrun in
  tlv_header_decode (slice f 40 48) = Some (1010, 120) /\
  declared_len f = Z.of_nat (length f) /\
  (length f < 40 + 8 + 120)%nat /\
  parse_standard_frame Examples.nan_row Examples.configured f = [[Examples.point7]].
Proof. cbv zeta. repeat apply conj; vm_compute; try reflexivity; lia. Qed.

(** C3 (amended): a TLV whose declared length runs past the end of the
    frame is not rejected.  Its payload is the bytes that remain, cut short
    without an error, and it is dispatched like any other payload; no later
    TLV of the frame is processed, because no header can be read past the
    end; the next frame is parsed normally. *)
Theorem tlv_overrun_payload_truncated
        (uninit : nat -> Track) (self : GridBackend) (frameData : bytes)
        (n offset : nat) (tlvType tlvLength : Z) :
  tlv_header_decode (slice frameData offset (offset + tlvHeaderLength))
  = Some (tlvType, tlvLength) ->
  (length frameData < offset + tlvHeaderLength + Z.to_nat tlvLength)%nat ->
  tlv_loop uninit self frameData (S n) offset
  = default [] (dispatch_tlv uninit self tlvType
                             (drop (offset + tlvHeaderLength) frameData) tlvLength) /\
  forall next, valid_frame frameData -> valid_frame next ->
               _read_from_serial_port uninit self [frameData ++ next; []] []
               = ([], [Frame frameData; Frame next],
                  parse_standard_frame uninit self frameData
                  ++ parse_standard_frame uninit self next).
Proof.
  intros Hhdr Hover. split; [|intros next; apply read_two_frames].
  cbn [tlv_loop]. rewrite Hhdr. unfold slice at 1.
  rewrite take_ge by (rewrite length_drop; lia).
  destruct (dispatch_tlv _ _ _ _ _) as [out|]; [|reflexivity].
  rewrite tlv_loop_past_end by lia. apply app_nil_r.
Qed.

Lemma tlv_overrun_payload_truncated_witness :
  let f := Examples.frame_overrun in
  tlv_header_decode (slice f 40 (40 + tlvHeaderLength)) = Some (1010, 120) /\
  (length f < 40 + tlvHeaderLength + Z.to_nat 120)%nat /\
  tlv_loop Examples.nan_row Examples.configured f 2 40
  = default [] (dispatch_tlv Examples.nan_row Examples.configured 1010
                             (drop (40 + tlvHeaderLength) f) 120).
Proof.
  assert (tlv_header_decode (slice Examples.frame_overrun 40 (40 + tlvHeaderLength))
          = Some (1010, 120)) as Hhdr by (vm_compute; reflexivity).
  assert (length Examples.frame_overrun < 40 + tlvHeaderLength + Z.to_nat 120)%nat as Hover
    by (vm_compute; lia).
  split; [exact Hhdr | split; [exact Hover |]].
  exact (proj1 (tlv_overrun_payload_truncated
                  Examples.nan_row Examples.configured _ 1 40 _ _ Hhdr Hover)).
Defined.

(** C4, as stated, fails: with a declared length of 224 (two records) and
    a payload that holds one record and 50 more bytes, record 1 cannot be
    decoded; the decoder reports 0, not 1, and returns the two-row array
    whose second row was never written, not the one-row sequence. *)
Lemma track_decode_failure_not_truncated :
  let tlvData := Examples.record7 ++ Examples.zeros 50 in
  parse_track_tlv Examples.nan_row tlvData 224
  = Some (0, [Examples.track7; Examples.nan_row 1]) /\
  parse_track_tlv Examples.nan_row tlvData 224 <> Some (1, [Examples.track7]).
Proof.
  assert (parse_track_tlv Examples.nan_row (Examples.record7 ++ Examples.zeros 50) 224
          = Some (0, [Examples.track7; Examples.nan_row 1])) as Heval
    by (vm_compute; reflexivity).
  split; [exact Heval|]. rewrite Heval. discriminate.
Qed.

(** C4 (amended): when the [k]-th 112-byte record (0-based) of the
    [length / 112] expected ones cannot be decoded from the remaining
    bytes, the decoder reports 0 decoded records.  The array it returns
    keeps its full size: the [k] records already decoded, then the rows
    that were never written.  The dispatcher forwards nothing. *)
Theorem track_decode_failure_reports_zero
        (uninit : nat -> Track) (self : GridBackend)
        (tlvData : bytes) (tlvLength : Z) (n k : nat) :
  py_int (fdiv (of_Z tlvLength) (of_Z (Z.of_nat targetSize))) = Some (Z.of_nat n) ->
  (k < n)%nat ->
  (targetSize * k <= length tlvData < targetSize * S k)%nat ->
  parse_track_tlv uninit tlvData tlvLength
  = Some (0, (decoded tlvData <$> seq 0 k) ++ (uninit <$> seq k (n - k))) /\
  dispatch_tlv uninit self 1010 tlvData tlvLength = Some [].
Proof.
  intros Hcount Hk Hlen.
  pose proof (parse_track_tlv_truncated uninit tlvData tlvLength n k Hcount Hk Hlen) as Hparse.
  split; [exact Hparse|].
  unfold dispatch_tlv. cbn [Z.eqb Pos.eqb]. rewrite Hparse. reflexivity.
Qed.

Lemma track_decode_failure_reports_zero_witness :
  let tlvData := Examples.record7 ++ Examples.zeros 50 in
  py_int (fdiv (of_Z 224) (of_Z (Z.of_nat targetSize))) = Some (Z.of_nat 2) /\
  (1 < 2)%nat /\
  (targetSize * 1 <= length tlvData < targetSize * 2)%nat /\
  parse_track_tlv Examples.nan_row tlvData 224
  = Some (0, (decoded tlvData <$> seq 0 1) ++ (Examples.nan_row <$> seq 1 (2 - 1))).
Proof.
  assert (py_int (fdiv (of_Z 224) (of_Z (Z.of_nat targetSize))) = Some (Z.of_nat 2)) as Hcount
    by (vm_compute; reflexivity).
  assert (1 < 2)%nat as Hk by lia.
  assert (targetSize * 1 <= length (Examples.record7 ++ Examples.zeros 50)
          < targetSize * 2)%nat as Hlen by (vm_compute; lia).
  split; [exact Hcount | split; [exact Hk | split; [exact Hlen |]]].
  exact (proj1 (track_decode_failure_reports_zero
                  Examples.nan_row Examples.configured _ _ _ _ Hcount Hk Hlen)).
Defined.

(** C5, as stated, fails: the example frame yields one point whose gridX
    is exactly 14.375 = ((3 + 12) / 24) * 23, which is not 17.26 at two
    decimals. *)
Lemma end_to_end_not_17_26 :
  Examples.end_to_end = [[Examples.point7]] /\
  ~ Examples.end_to_end_yields 1726 959.
Proof.
  assert (Examples.end_to_end = [[Examples.point7]]) as Heval by (vm_compute; reflexivity).
  split; [exact Heval|].
  intros (p & Hp & _ & Hx & _). rewrite Heval in Hp. injection Hp as <-.
  vm_compute in Hx. discriminate Hx.
Qed.

(** C5 (amended): under the configuration xMin=-12, xMax=12, yMin=0,
    yMax=120, dx=1, dy=5 (so nx=24, ny=24), the frame with numTLVs=1 and
    one TLV of type 1010 and length 112 holding the record id=7, posX=3.0,
    posY=50.0, confidence=0.9 makes the pipeline emit exactly one point:
    id 7, gridX = 14.375, gridY = 9.58 at two decimals (the double nearest
    to 115/12), realX 3.0, realY 50.0. *)
Theorem end_to_end_example :
  create_grid init Examples.cfg_default
  = (Examples.configured, GridReady (np_zeros 24 24)) /\
  nx Examples.configured = 24 /\ ny Examples.configured = 24 /\
  frames_of (_read_from_serial_port Examples.nan_row Examples.configured
               [Examples.frame7] []).1.2 = [Examples.frame7] /\
  Examples.end_to_end = [[Examples.point7]] /\
  p_x Examples.point7 = NFloat (dec 14375 3) /\
  approx2 958 (p_y Examples.point7) = true /\
  Examples.end_to_end_yields 1438 958.
Proof.
  assert (Examples.end_to_end = [[Examples.point7]]) as Heval by (vm_compute; reflexivity).
  split; [vm_compute; reflexivity|].
  split; [vm_compute; reflexivity|].
  split; [vm_compute; reflexivity|].
  split; [vm_compute; reflexivity|].
  split; [exact Heval|].
  split; [vm_compute; reflexivity|].
  split; [vm_compute; reflexivity|].
  exists Examples.point7.
  split; [exact Heval|].
  split; [vm_compute; reflexivity|].
  split; [vm_compute; reflexivity|].
  split; [vm_compute; reflexivity|].
  split; vm_compute; reflexivity.
Qed.

(** C1 (the code at a failing input): with the default configuration
    active, a request with [dx = 0] is answered with "Invalid cell size",
    yet the four bounds of the request have replaced the active ones while
    [nx] and [ny] are kept, and the same track is mapped differently
    afterwards; a request whose derived [nx] is 0 is answered with "Invalid
    grid size" after [nx] has been overwritten, and nothing is mapped any
    more. *)
Theorem create_grid_rejection_overwrites_state :
  let prev := Examples.configured in
  let after := fst (create_grid prev Examples.cfg_dx0) in
  let after' := fst (create_grid prev Examples.cfg_dx100) in
  snd (create_grid prev Examples.cfg_dx0) = InvalidCellSize /\
  after = mkBackend (of_Z 0) (of_Z 10) (of_Z 0) (of_Z 10) 24 24 /\
  after <> prev /\
  rescale_and_emit_points prev [Examples.track7] = Emit [Examples.point7] /\
  rescale_and_emit_points after [Examples.track7]
  = Emit [mkPoint (NFloat (fmul (dec 3 1) (of_Z 23))) (NInt 23) 7 (of_Z 3) (of_Z 50)] /\
  snd (create_grid prev Examples.cfg_dx100) = InvalidGridSize /\
  nx prev = 24 /\ nx after' = 0 /\
  rescale_and_emit_points after' [Examples.track7] = NoEmit.
Proof.
  cbv zeta.
  split; [vm_compute; reflexivity|].
  split; [vm_compute; reflexivity|].
  split; [vm_compute; discriminate|].
  split; [vm_compute; reflexivity|].
  split; [vm_compute; reflexivity|].
  split; [vm_compute; reflexivity|].
  split; [vm_compute; reflexivity|].
  split; vm_compute; reflexivity.
Qed.

(* ===================================================================== *)
(** ** Further properties of the synchroniser                             *)
(* ===================================================================== *)

Section SynchroniserMore.

Variable uninit : nat -> Track.

Lemma find_None (sub buf : bytes) :
  find sub buf = None -> forall i, take (length sub) (drop i buf) <> sub.
Proof.
  induction buf as [|b buf IH]; simpl.
  - destruct (decide _) as [|Hne]; [discriminate|].
    intros _ i. rewrite drop_nil. exact Hne.
  - destruct (decide _) as [|Hne]; [discriminate|].
    destruct (find sub buf) as [j|]; [discriminate|].
    intros _ [|i]; [exact Hne | apply IH; reflexivity].
Qed.

(** No occurrence of [sub] starts inside the prefix [d]: the search
    result is the one for what follows, shifted. *)
Lemma find_skip (sub d rest : bytes) :
  (forall j, (j < length d)%nat -> take (length sub) (drop j (d ++ rest)) <> sub) ->
  find sub (d ++ rest) = (fun i => (length d + i)%nat) <$> find sub rest.
Proof.
  induction d as [|a d IH]; intros Hno.
  - simpl. destruct (find sub rest); reflexivity.
  - cbn [app find]. rewrite decide_False by (apply (Hno 0%nat); simpl; lia).
    rewrite IH by (intros j Hj; apply (Hno (S j)); simpl; lia).
    destruct (find sub rest); reflexivity.
Qed.

Lemma sync_buffer_unfold (buffer : bytes) :
  sync_buffer buffer
  = match find MAGIC_WORD buffer with
    | None => (if decide (1024 < length buffer)%nat
               then drop (length buffer - 1024) buffer else buffer, NoMagic)
    | Some magic_idx => from_marker (drop magic_idx buffer)
    end.
Proof. reflexivity. Qed.

(** [from_marker] only ever drops a prefix, and a frame it returns is the
    prefix it dropped. *)
Lemma from_marker_conserves (buffer : bytes) :
  exists dropped,
    buffer = dropped ++ (from_marker buffer).1 /\
    (frame_of (from_marker buffer).2 = [] \/ frame_of (from_marker buffer).2 = dropped).
Proof.
  unfold from_marker.
  destruct (decide _); [exists []; auto|].
  destruct (header_fields _) as [[[magic version] totalPacketLen]|]; [|exists []; auto].
  destruct (negb _);
    [exists (take 1 buffer); cbn [fst snd frame_of]; rewrite take_drop; auto|].
  destruct (_ <? _); [exists []; auto|].
  exists (take (Z.to_nat totalPacketLen) buffer). cbn [fst snd frame_of].
  rewrite take_drop. auto.
Qed.

End SynchroniserMore.

(** X1: a pass never invents or reorders bytes.  The buffer it leaves is a
    suffix of the buffer it was given, and a frame handed to the parser is
    a block of the old buffer that ends where the new buffer starts. *)
Theorem pass_conserves_bytes (buffer : bytes) :
  exists dropped,
    buffer = dropped ++ frame_of (sync_buffer buffer).2 ++ (sync_buffer buffer).1.
Proof.
  rewrite sync_buffer_unfold.
  destruct (find MAGIC_WORD buffer) as [i|].
  - destruct (from_marker_conserves (drop i buffer)) as (d & Hsplit & [Hnone|Hframe]).
    + exists (take i buffer ++ d). rewrite Hnone. cbn [app].
      rewrite <- app_assoc, <- Hsplit, take_drop. reflexivity.
    + exists (take i buffer). rewrite Hframe, <- Hsplit, take_drop. reflexivity.
  - cbn [fst snd frame_of app]. destruct (decide _).
    + exists (take (length buffer - 1024) buffer). rewrite take_drop. reflexivity.
    + exists []. reflexivity.
Qed.

(** X2: every frame of at least 40 bytes that a pass hands to the parser
    starts with the marker and carries its own length in its length field;
    in any case its length is the declared length read at the marker. *)
Theorem extracted_frame_is_valid (buffer frame_bytes : bytes) :
  (sync_buffer buffer).2 = Frame frame_bytes ->
  (exists magic_idx,
      find MAGIC_WORD buffer = Some magic_idx /\
      Z.of_nat (length frame_bytes)
      = Z.max 0 (declared_len (drop magic_idx buffer))) /\
  ((HEADER_LEN <= length frame_bytes)%nat -> valid_frame frame_bytes).
Proof.
  intros Hout.
  destruct (find MAGIC_WORD buffer) as [i|] eqn:Hfind;
    [|unfold sync_buffer in Hout; rewrite Hfind in Hout; discriminate].
  destruct (decide (length (drop i buffer) < HEADER_LEN)%nat) as [Hshort|Hlong].
  { unfold sync_buffer in Hout. rewrite Hfind in Hout. cbv zeta in Hout.
    rewrite decide_True in Hout by exact Hshort. discriminate. }
  rewrite (sync_buffer_found _ _ Hfind) in Hout by lia.
  unfold at_marker in Hout.
  destruct (_ <? _) eqn:Hcmp; [discriminate|]. apply Z.ltb_ge in Hcmp.
  cbn [snd] in Hout. injection Hout as <-.
  set (b := drop i buffer) in *. set (L := declared_len b) in *.
  pose proof (eq_refl : L = declared_len b) as HL. clearbody L.
  assert (length (take (Z.to_nat L) b) = Z.to_nat L) as Hlen
    by (rewrite length_take; lia).
  split.
  - exists i. split; [reflexivity|]. rewrite Hlen. fold b. rewrite <- HL. lia.
  - intros Hbig. unfold HEADER_LEN in *. rewrite Hlen in Hbig.
    apply find_Some in Hfind. change (length MAGIC_WORD) with 8%nat in Hfind.
    fold b in Hfind. repeat split.
    + rewrite take_take, Nat.min_l by lia. exact Hfind.
    + unfold HEADER_LEN. rewrite Hlen. exact Hbig.
    + rewrite Hlen. transitivity (declared_len b); [|rewrite <- HL; lia].
      unfold declared_len, slice.
      rewrite !take_drop_commute, take_take, Nat.min_l by lia. reflexivity.
Qed.

Lemma extracted_frame_is_valid_witness :
  let buffer := Samples.garbage ++ Examples.frame7 ++ [x01] in
  (sync_buffer buffer).2 = Frame Examples.frame7 /\
  valid_frame Examples.frame7.
Proof.
  assert ((sync_buffer (Samples.garbage ++ Examples.frame7 ++ [x01])).2
          = Frame Examples.frame7) as Hout by (vm_compute; reflexivity).
  split; [exact Hout|].
  apply (proj2 (extracted_frame_is_valid _ _ Hout)). vm_compute. lia.
Defined.

(** X3: a valid frame behind garbage is cut out exactly and the garbage is
    discarded, provided no occurrence of the marker starts inside the
    garbage (not even one completed by the first bytes of the frame);
    whatever follows the frame stays buffered. *)
Theorem garbage_prefix_discarded (pre f rest : bytes) :
  valid_frame f ->
  find MAGIC_WORD (pre ++ take 7 MAGIC_WORD) = None ->
  sync_buffer (pre ++ f ++ rest) = (rest, Frame f).
Proof.
  intros Hv Hclean. apply sync_buffer_valid_frame; [exact Hv|].
  destruct Hv as (Hmagic & Hlen & _). unfold HEADER_LEN in Hlen.
  rewrite find_skip.
  - rewrite find_prefix; [simpl; f_equal; lia|].
    change (length MAGIC_WORD) with 8%nat. rewrite take_app_le by lia. exact Hmagic.
  - intros j Hj Hocc. apply (find_None _ _ Hclean j).
    etransitivity; [|exact Hocc].
    change (length MAGIC_WORD) with 8%nat.
    rewrite !drop_app_le by lia.
    rewrite !(take_app (drop j pre)).
    f_equal. rewrite length_drop.
    rewrite take_app_le by lia.
    rewrite <- Hmagic, !take_take. f_equal. lia.
Qed.

Lemma garbage_prefix_discarded_witness :
  valid_frame Examples.frame7 /\
  find MAGIC_WORD (Samples.garbage ++ take 7 MAGIC_WORD) = None /\
  sync_buffer (Samples.garbage ++ Examples.frame7 ++ Samples.frame_empty)
  = (Samples.frame_empty, Frame Examples.frame7).
Proof.
  assert (valid_frame Examples.frame7) as Hv
    by (repeat apply conj; vm_compute; try reflexivity; lia).
  assert (find MAGIC_WORD (Samples.garbage ++ take 7 MAGIC_WORD) = None) as Hclean
    by (vm_compute; reflexivity).
  split; [exact Hv | split; [exact Hclean |]].
  exact (garbage_prefix_discarded _ _ _ Hv Hclean).
Defined.

(** X4: trimming is never observable.  When a pass finds no marker, it
    keeps at most the last 1024 bytes, and whatever arrives next the
    following pass ends exactly as it would have on the untrimmed buffer:
    a marker split across two reads is not lost. *)
Theorem trimming_is_unobservable (buffer chunk : bytes) :
  find MAGIC_WORD buffer = None ->
  (length (sync_buffer buffer).1 <= 1024)%nat /\
  sync_buffer ((sync_buffer buffer).1 ++ chunk) = sync_buffer (buffer ++ chunk).
Proof.
  intros Hnone. rewrite (sync_buffer_unfold buffer), Hnone. cbn [fst].
  destruct (decide (1024 < length buffer)%nat) as [Hbig|Hsmall].
  2: { split; [lia | reflexivity]. }
  split; [rewrite length_drop; lia|].
  set (d := take (length buffer - 1024) buffer).
  set (kept := drop (length buffer - 1024) buffer).
  assert (buffer = d ++ kept) as Hsplit by (unfold d, kept; rewrite take_drop; reflexivity).
  assert (length kept = 1024%nat) as Hkept by (unfold kept; rewrite length_drop; lia).
  assert (length d = (length buffer - 1024)%nat) as Hd
    by (unfold d; rewrite length_take; lia).
  clearbody d kept. subst buffer. rewrite length_app in *.
  assert (find MAGIC_WORD (d ++ kept ++ chunk)
          = (fun i => (length d + i)%nat) <$> find MAGIC_WORD (kept ++ chunk)) as Hfind.
  { apply find_skip. intros j Hj Hocc. apply (find_None _ _ Hnone j).
    etransitivity; [|exact Hocc].
    change (length MAGIC_WORD) with 8%nat.
    rewrite (app_assoc d kept chunk).
    rewrite (drop_app_le (d ++ kept)) by (rewrite length_app; lia).
    rewrite take_app_le by (rewrite length_drop, length_app; lia).
    reflexivity. }
  rewrite <- app_assoc.
  rewrite (sync_buffer_unfold (kept ++ chunk)), (sync_buffer_unfold (d ++ kept ++ chunk)).
  rewrite Hfind.
  destruct (find MAGIC_WORD (kept ++ chunk)) as [i|]; cbn [fmap option_fmap option_map].
  - rewrite drop_app_add. reflexivity.
  - rewrite (decide_True (P := (1024 < length (d ++ kept ++ chunk))%nat))
      by (rewrite !length_app; lia).
    rewrite (length_app d).
    destruct (decide (1024 < length (kept ++ chunk))%nat) as [Hmore|Hsame].
    + f_equal.
      replace (length d + length (kept ++ chunk) - 1024)%nat
        with (length d + (length (kept ++ chunk) - 1024))%nat by lia.
      symmetry. apply drop_app_add.
    + f_equal.
      replace (length d + length (kept ++ chunk) - 1024)%nat
        with (length d + 0)%nat by (rewrite length_app in *; lia).
      rewrite drop_app_add. reflexivity.
Qed.

Lemma trimming_is_unobservable_witness :
  find MAGIC_WORD Samples.noise = None /\
  length (sync_buffer Samples.noise).1 = 1024%nat /\
  sync_buffer ((sync_buffer Samples.noise).1 ++ Samples.completion)
  = sync_buffer (Samples.noise ++ Samples.completion) /\
  (sync_buffer (Samples.noise ++ Samples.completion)).2 = Frame Examples.frame7.
Proof.
  assert (find MAGIC_WORD Samples.noise = None) as Hnone by (vm_compute; reflexivity).
  split; [exact Hnone|].
  split; [vm_compute; reflexivity|].
  split; [exact (proj2 (trimming_is_unobservable _ Samples.completion Hnone))|].
  vm_compute. reflexivity.
Defined.

(* ===================================================================== *)
(** ** Streams of frames                                                  *)
(* ===================================================================== *)

Section Stream.

Variable uninit : nat -> Track.

Lemma read_app (self : GridBackend) (reads1 reads2 : list bytes) (buffer : bytes) :
  _read_from_serial_port uninit self (reads1 ++ reads2) buffer
  = let '(buffer1, os1, outs1) := _read_from_serial_port uninit self reads1 buffer in
    let '(buffer2, os2, outs2) := _read_from_serial_port uninit self reads2 buffer1 in
    (buffer2, os1 ++ os2, outs1 ++ outs2).
Proof.
  revert buffer. induction reads1 as [|chunk reads1 IH]; intros buffer.
  - cbn [app _read_from_serial_port].
    destruct (_read_from_serial_port uninit self reads2 buffer) as [[b os] outs].
    reflexivity.
  - cbn [app _read_from_serial_port].
    destruct (iteration uninit self buffer chunk) as [[b o] out].
    rewrite IH.
    destruct (_read_from_serial_port uninit self reads1 b) as [[b1 os1] outs1].
    destruct (_read_from_serial_port uninit self reads2 b1) as [[b2 os2] outs2].
    rewrite app_assoc. reflexivity.
Qed.

Lemma iteration_eq (self : GridBackend) (buffer chunk : bytes) :
  iteration uninit self buffer chunk
  = ((sync_buffer (buffer ++ chunk)).1, (sync_buffer (buffer ++ chunk)).2,
     concat (parse_standard_frame uninit self
               <$> frames_of [(sync_buffer (buffer ++ chunk)).2])).
Proof.
  unfold iteration. destruct (sync_buffer (buffer ++ chunk)) as [b o].
  destruct o; cbn; rewrite ?app_nil_r; reflexivity.
Qed.

(** Everything emitted in a run is what parsing the extracted frames
    gives, frame after frame. *)
Lemma read_emissions (self : GridBackend) (reads : list bytes) (buffer : bytes) :
  (_read_from_serial_port uninit self reads buffer).2
  = concat (parse_standard_frame uninit self
              <$> frames_of (_read_from_serial_port uninit self reads buffer).1.2).
Proof.
  revert buffer. induction reads as [|chunk reads IH]; intros buffer; [reflexivity|].
  cbn [_read_from_serial_port]. rewrite iteration_eq.
  specialize (IH (sync_buffer (buffer ++ chunk)).1).
  destruct (_read_from_serial_port uninit self reads (sync_buffer (buffer ++ chunk)).1)
    as [[b os] outs].
  cbn [fst snd] in *. rewrite (frames_of_cons _ os), fmap_app, concat_app, IH. reflexivity.
Qed.

(** The invariant of a run over a stream of valid frames: what is
    buffered and what is still to arrive make up the frames not yet
    extracted. *)
Lemma read_stream (self : GridBackend) (reads : list bytes) :
  forall (fs : list bytes) (buffer : bytes),
    Forall valid_frame fs ->
    buffer ++ concat reads = concat fs ->
    exists k, (k <= length fs)%nat /\
      frames_of (_read_from_serial_port uninit self reads buffer).1.2 = take k fs /\
      (_read_from_serial_port uninit self reads buffer).1.1 = concat (drop k fs).
Proof.
  induction reads as [|chunk reads IH]; intros fs buffer Hvalid Hinv.
  - exists 0%nat. cbn. rewrite app_nil_r in Hinv. repeat split; [lia | exact Hinv].
  - cbn [concat] in Hinv. rewrite app_assoc in Hinv.
    cbn [_read_from_serial_port]. rewrite iteration_eq.
    set (b := buffer ++ chunk) in *.
    destruct fs as [|f fs].
    + cbn [concat] in Hinv. apply app_eq_nil in Hinv as [Hb Hrest].
      rewrite Hb. change (sync_buffer []) with (@nil byte, NoMagic). cbn [fst snd].
      destruct (IH [] [] Hvalid) as (k & Hk & Hframes & Hbuf); [exact Hrest|].
      exists k.
      destruct (_read_from_serial_port uninit self reads []) as [[b2 os] outs].
      cbn [fst snd] in *. rewrite (frames_of_cons _ os). auto.
    + apply Forall_cons in Hvalid as [Hv Hvalid]. cbn [concat] in Hinv.
      destruct (decide (length b < length f)%nat) as [Hshort|Hlong].
      * assert (b = take (length b) f) as Hb.
        { apply (f_equal (take (length b))) in Hinv.
          rewrite take_app_length, take_app_le in Hinv by lia. exact Hinv. }
        assert (b ++ drop (length b) f = f) as Hsplit
          by (rewrite Hb at 1; apply take_drop).
        destruct (sync_buffer_partial f b _ Hv Hsplit Hshort) as (o & Hstep & Ho).
        rewrite Hstep. cbn [fst snd].
        destruct (IH (f :: fs) b) as (k & Hk & Hframes & Hbuf);
          [constructor; assumption | exact Hinv |].
        exists k.
        destruct (_read_from_serial_port uninit self reads b) as [[b2 os] outs].
        cbn [fst snd] in *. rewrite (frames_of_cons _ os), Ho. auto.
      * assert (f = take (length f) b) as Hf.
        { apply (f_equal (take (length f))) in Hinv.
          rewrite take_app_length, take_app_le in Hinv by lia. symmetry. exact Hinv. }
        assert (b = f ++ drop (length f) b) as Hb
          by (rewrite Hf at 1; symmetry; apply take_drop).
        assert (drop (length f) b ++ concat reads = concat fs) as Hinv'.
        { apply (f_equal (drop (length f))) in Hinv.
          rewrite drop_app_length, drop_app_le in Hinv by lia. exact Hinv. }
        assert (sync_buffer b = (drop (length f) b, Frame f)) as Hstep.
        { rewrite Hb at 1.
          apply (sync_buffer_valid_frame [] f _ Hv).
          apply find_prefix. change (length MAGIC_WORD) with 8%nat.
          destruct Hv as (Hm & Hlen & _). unfold HEADER_LEN in Hlen.
          cbn [app]. rewrite take_app_le by lia. exact Hm. }
        rewrite Hstep. cbn [fst snd].
        destruct (IH fs _ Hvalid Hinv') as (k & Hk & Hframes & Hbuf).
        exists (S k).
        destruct (_read_from_serial_port uninit self reads (drop (length f) b))
          as [[b2 os] outs].
        cbn [fst snd] in *. rewrite (frames_of_cons _ os), Hframes. cbn.
        repeat split; [lia | exact Hbuf].
Qed.

(** With nothing more arriving, the frames that are buffered come out one
    per pass. *)
Lemma read_drain (self : GridBackend) (fs : list bytes) :
  forall n, Forall valid_frame fs -> (length fs <= n)%nat ->
    frames_of (_read_from_serial_port uninit self (replicate n []) (concat fs)).1.2 = fs /\
    (_read_from_serial_port uninit self (replicate n []) (concat fs)).1.1 = [].
Proof.
  induction fs as [|f fs IH]; intros n Hvalid Hn.
  - cbn [concat]. rewrite read_idle.
    + cbn [fst snd]. rewrite frames_of_replicate_NoMagic. auto.
    + clear. induction n as [|n IHn]; [reflexivity | exact IHn].
  - destruct n as [|n]; [simpl in Hn; lia|].
    apply Forall_cons in Hvalid as [Hv Hvalid].
    cbn [replicate _read_from_serial_port concat]. rewrite iteration_eq, app_nil_r.
    assert (sync_buffer (f ++ concat fs) = (concat fs, Frame f)) as Hstep.
    { apply (sync_buffer_valid_frame [] f _ Hv).
      apply find_prefix. change (length MAGIC_WORD) with 8%nat.
      destruct Hv as (Hm & Hlen & _). unfold HEADER_LEN in Hlen.
      cbn [app]. rewrite take_app_le by lia. exact Hm. }
    rewrite Hstep. cbn [fst snd].
    destruct (IH n Hvalid) as [Hframes Hbuf]; [simpl in Hn; lia|].
    destruct (_read_from_serial_port uninit self (replicate n []) (concat fs))
      as [[b2 os] outs].
    cbn [fst snd] in *. rewrite (frames_of_cons _ os), Hframes. auto.
Qed.

End Stream.

(** X5: a stream of valid frames, cut into reads at arbitrary places,
    comes out in order and intact: at any time the frames extracted so far
    are the first [k] of the stream and the buffer holds exactly the bytes
    of the others that have arrived; once as many further passes have run
    as there are frames, every frame has come out, the buffer is empty,
    and the points emitted are those of the frames, in order. *)
Theorem frames_extracted_in_order
        (uninit : nat -> Track) (self : GridBackend) (fs : list bytes) (reads : list bytes) :
  Forall valid_frame fs ->
  concat reads = concat fs ->
  (exists k, (k <= length fs)%nat /\
     frames_of (_read_from_serial_port uninit self reads []).1.2 = take k fs /\
     (_read_from_serial_port uninit self reads []).1.1 = concat (drop k fs)) /\
  let run := _read_from_serial_port uninit self (reads ++ replicate (length fs) []) [] in
  frames_of run.1.2 = fs /\ run.1.1 = [] /\
  run.2 = concat (parse_standard_frame uninit self <$> fs).
Proof.
  intros Hvalid Hcat.
  destruct (read_stream uninit self reads fs [] Hvalid Hcat) as (k & Hk & Hframes & Hbuf).
  split; [exists k; auto|].
  cbv zeta.
  assert (frames_of (_read_from_serial_port uninit self
                       (reads ++ replicate (length fs) []) []).1.2 = fs /\
          (_read_from_serial_port uninit self
             (reads ++ replicate (length fs) []) []).1.1 = []) as [Hall Hempty].
  { rewrite read_app.
    destruct (_read_from_serial_port uninit self reads []) as [[b1 os1] outs1].
    cbn [fst snd] in Hframes, Hbuf. subst b1.
    destruct (read_drain uninit self (drop k fs) (length fs)) as [Hrest Hnil].
    - apply Forall_drop. exact Hvalid.
    - rewrite length_drop. lia.
    - destruct (_read_from_serial_port uninit self (replicate (length fs) [])
                  (concat (drop k fs))) as [[b2 os2] outs2].
      cbn [fst snd] in *. split; [|exact Hnil].
      unfold frames_of in *. rewrite omap_app, Hframes, Hrest. apply take_drop. }
  split; [exact Hall | split; [exact Hempty|]].
  rewrite read_emissions, Hall. reflexivity.
Qed.

Lemma frames_extracted_in_order_witness :
  let fs := [Examples.frame7; Samples.frame_empty; Samples.frame_mixed] in
  let reads := [take 100 Examples.frame7;
                drop 100 Examples.frame7 ++ Samples.frame_empty ++ take 3 Samples.frame_mixed;
                [];
                drop 3 Samples.frame_mixed] in
  Forall valid_frame fs /\ concat reads = concat fs /\
  frames_of (_read_from_serial_port Examples.nan_row Examples.configured
               (reads ++ replicate (length fs) []) []).1.2 = fs.
Proof.
  assert (Forall valid_frame
            [Examples.frame7; Samples.frame_empty; Samples.frame_mixed]) as Hvalid
    by (repeat constructor; vm_compute; try reflexivity; lia).
  assert (concat [take 100 Examples.frame7;
                  drop 100 Examples.frame7 ++ Samples.frame_empty
                       ++ take 3 Samples.frame_mixed;
                  [];
                  drop 3 Samples.frame_mixed]
          = concat [Examples.frame7; Samples.frame_empty; Samples.frame_mixed]) as Hcat
    by (vm_compute; reflexivity).
  split; [exact Hvalid | split; [exact Hcat |]].
  exact (proj1 (proj2 (frames_extracted_in_order
                         Examples.nan_row Examples.configured _ _ Hvalid Hcat))).
Defined.

(* ===================================================================== *)
(** ** What reaches the front end                                         *)
(* ===================================================================== *)

Section Emissions.

Variable uninit : nat -> Track.

Lemma rescale_unconfigured (self : GridBackend) (targets : list Track) :
  nx self = 0 \/ ny self = 0 -> rescale_and_emit_points self targets = NoEmit.
Proof.
  intros Hzero. unfold rescale_and_emit_points.
  destruct (decide _); [reflexivity|]. destruct (decide _); [reflexivity|].
  destruct Hzero as [-> | ->]; [reflexivity|].
  rewrite orb_true_r. reflexivity.
Qed.

Lemma rescale_loop_length (self : GridBackend) (targets : list Track) (pts : list Point) :
  rescale_loop self targets = Some pts -> length pts = length targets.
Proof.
  intros Hloop. apply rescale_loop_spec in Hloop.
  symmetry. eapply Forall2_length. exact Hloop.
Qed.

Lemma rescale_loop_clamped (self : GridBackend) (targets : list Track) (pts : list Point) :
  rescale_loop self targets = Some pts ->
  Forall (fun p => clamped (nx self) (p_x p) /\ clamped (ny self) (p_y p)) pts.
Proof.
  intros Hloop. apply rescale_loop_spec in Hloop.
  induction Hloop as [|t p ts ps Hp _ IH]; constructor; [|exact IH].
  apply rescale_point_spec in Hp as (Hx & Hy & _). auto.
Qed.

(** Every list that [dispatch_tlv] emits was emitted by a call of
    [rescale_and_emit_points] on this backend. *)
Lemma dispatch_tlv_batches (self : GridBackend) (tlvType : Z) (tlvPayload : bytes)
      (tlvLength : Z) (out : list (list Point)) :
  dispatch_tlv uninit self tlvType tlvPayload tlvLength = Some out ->
  Forall (fun batch => exists targets, rescale_and_emit_points self targets = Emit batch) out.
Proof.
  unfold dispatch_tlv.
  destruct (tlvType =? 1020); [intros [= <-]; constructor|].
  destruct (tlvType =? 1010).
  - destruct (parse_track_tlv uninit tlvPayload tlvLength) as [[count targets]|];
      [|discriminate].
    destruct (0 <? count); [|intros [= <-]; constructor].
    destruct (rescale_and_emit_points self targets) as [|pts|] eqn:Hemit;
      intros [= <-]; repeat constructor. exists targets. exact Hemit.
  - destruct (tlvType =? 1011); [intros [= <-]; constructor|].
    destruct (tlvType =? 1012); [intros [= <-]; constructor|].
    destruct (tlvType =? 1021); intros [= <-]; constructor.
Qed.

Lemma tlv_loop_batches (self : GridBackend) (frameData : bytes) (n : nat) :
  forall offset,
    Forall (fun batch => exists targets, rescale_and_emit_points self targets = Emit batch)
           (tlv_loop uninit self frameData n offset).
Proof.
  induction n as [|n IH]; intros offset; cbn [tlv_loop]; [constructor|].
  destruct (tlv_header_decode _) as [[tlvType tlvLength]|]; [|constructor].
  destruct (dispatch_tlv _ _ _ _ _) as [out|] eqn:Hout; [|constructor].
  apply Forall_app. split; [eapply dispatch_tlv_batches; exact Hout | apply IH].
Qed.

Lemma parse_standard_frame_batches (self : GridBackend) (frameData : bytes) :
  Forall (fun batch => exists targets, rescale_and_emit_points self targets = Emit batch)
         (parse_standard_frame uninit self frameData).
Proof.
  unfold parse_standard_frame.
  destruct (unpack_Q8I _) as [fields|]; [|constructor].
  do 9 (destruct fields as [|? fields]; [constructor|]).
  destruct fields; [apply tlv_loop_batches | constructor].
Qed.

Lemma read_batches (self : GridBackend) (reads : list bytes) (buffer : bytes) :
  Forall (fun batch => exists targets, rescale_and_emit_points self targets = Emit batch)
         (_read_from_serial_port uninit self reads buffer).2.
Proof.
  rewrite read_emissions.
  induction (frames_of _) as [|f fs IH]; [constructor|].
  cbn. apply Forall_app. split; [apply parse_standard_frame_batches | exact IH].
Qed.

End Emissions.

(** X6: as long as the grid is not configured ([nx] or [ny] is 0, as
    after [__init__]), nothing is ever emitted, whatever arrives on the
    port. *)
Theorem nothing_emitted_unconfigured
        (uninit : nat -> Track) (self : GridBackend) (reads : list bytes) (buffer : bytes) :
  nx self = 0 \/ ny self = 0 ->
  (_read_from_serial_port uninit self reads buffer).2 = [].
Proof.
  intros Hzero.
  pose proof (read_batches uninit self reads buffer) as Hall.
  destruct (_read_from_serial_port uninit self reads buffer).2 as [|batch outs];
    [reflexivity|].
  apply Forall_cons in Hall as [[targets Hemit] _].
  rewrite rescale_unconfigured in Hemit by exact Hzero. discriminate.
Qed.

Lemma nothing_emitted_unconfigured_witness :
  (nx init = 0 \/ ny init = 0) /\
  (_read_from_serial_port Examples.nan_row init [Examples.frame7; []] []).2 = [].
Proof.
  assert (nx init = 0 \/ ny init = 0) as Hzero by (left; reflexivity).
  split; [exact Hzero|].
  exact (nothing_emitted_unconfigured Examples.nan_row init _ _ Hzero).
Defined.

(** X7: every list delivered to [update_radar_points] by the backend is
    non-empty, so the branch that clears the scatter plot is never taken;
    the plot gets one horizontal and one vertical coordinate per point,
    the horizontal ones being the clamped [y] grid coordinates and the
    vertical ones the clamped [x] grid coordinates. *)
Theorem scatter_gets_clamped_points
        (uninit : nat -> Track) (self : GridBackend) (reads : list bytes) (buffer : bytes)
        (batch : list Point) :
  In batch (_read_from_serial_port uninit self reads buffer).2 ->
  batch <> [] /\
  update_radar_points batch = ((fun p => p_y p) <$> batch, (fun p => p_x p) <$> batch) /\
  Forall (clamped (ny self)) (update_radar_points batch).1 /\
  Forall (clamped (nx self)) (update_radar_points batch).2.
Proof.
  intros Hin.
  pose proof (read_batches uninit self reads buffer) as Hall.
  rewrite Forall_forall in Hall. apply list_elem_of_In in Hin.
  destruct (Hall _ Hin) as [targets Hemit].
  apply emit_spec in Hemit as (Hloop & Hne & _).
  assert (batch <> []) as Hbatch.
  { intros ->. apply rescale_loop_length in Hloop.
    destruct (confidence_filter targets); [congruence | discriminate]. }
  assert (update_radar_points batch
          = ((fun p => p_y p) <$> batch, (fun p => p_x p) <$> batch)) as Hupd
    by (destruct batch; [congruence | reflexivity]).
  split; [exact Hbatch | split; [exact Hupd|]].
  rewrite Hupd. cbn [fst snd]. apply rescale_loop_clamped in Hloop.
  split; apply Forall_fmap; unfold compose.
  all: eapply Forall_impl; [exact Hloop|]; intros p [Hx Hy]; assumption.
Qed.

Lemma scatter_gets_clamped_points_witness :
  let batch := [Examples.point7] in
  In batch (_read_from_serial_port Examples.nan_row Examples.configured
              [Examples.frame7] []).2 /\
  batch <> [] /\
  update_radar_points batch = ([p_y Examples.point7], [p_x Examples.point7]).
Proof.
  assert ((_read_from_serial_port Examples.nan_row Examples.configured
             [Examples.frame7] []).2 = [[Examples.point7]]) as Hrun
    by (vm_compute; reflexivity).
  assert (In [Examples.point7]
             (_read_from_serial_port Examples.nan_row Examples.configured
                [Examples.frame7] []).2) as Hin
    by (rewrite Hrun; left; reflexivity).
  split; [exact Hin|].
  destruct (scatter_gets_clamped_points _ _ _ _ _ Hin) as (Hne & Hupd & _).
  split; [exact Hne | exact Hupd].
Defined.

(** X8: a TLV of any type other than 1010 is skipped: nothing is emitted
    for it, whatever its payload, and parsing goes on with the TLV that
    starts right after its declared length. *)
Theorem other_tlv_types_skipped
        (uninit : nat -> Track) (self : GridBackend) (frameData : bytes)
        (n offset : nat) (tlvType tlvLength : Z) :
  tlv_header_decode (slice frameData offset (offset + tlvHeaderLength))
  = Some (tlvType, tlvLength) ->
  tlvType <> 1010 ->
  tlv_loop uninit self frameData (S n) offset
  = tlv_loop uninit self frameData n (offset + (tlvHeaderLength + Z.to_nat tlvLength)).
Proof.
  intros Hhdr Hother. cbn [tlv_loop]. rewrite Hhdr.
  assert (forall payload, dispatch_tlv uninit self tlvType payload tlvLength = Some [])
    as Hskip.
  { intros payload. unfold dispatch_tlv.
    rewrite (proj2 (Z.eqb_neq tlvType 1010) Hother).
    destruct (tlvType =? 1020), (tlvType =? 1011), (tlvType =? 1012),
      (tlvType =? 1021); reflexivity. }
  rewrite Hskip. reflexivity.
Qed.

Lemma other_tlv_types_skipped_witness :
  let f := Samples.frame_mixed in
  tlv_header_decode (slice f 40 (40 + tlvHeaderLength)) = Some (1020, 4) /\
  1020 <> 1010 /\
  tlv_loop Examples.nan_row Examples.configured f 2 40
  = tlv_loop Examples.nan_row Examples.configured f 1 (40 + (tlvHeaderLength + Z.to_nat 4)) /\
  parse_standard_frame Examples.nan_row Examples.configured f = [[Examples.point7]].
Proof.
  assert (tlv_header_decode (slice Samples.frame_mixed 40 (40 + tlvHeaderLength))
          = Some (1020, 4)) as Hhdr by (vm_compute; reflexivity).
  assert (1020 <> 1010) as Hother by lia.
  split; [exact Hhdr | split; [exact Hother | split]].
  - exact (other_tlv_types_skipped Examples.nan_row Examples.configured _ 1 40 _ _
                                   Hhdr Hother).
  - vm_compute. reflexivity.
Defined.

(** X9: the points of an emitted list correspond one to one, in order, to
    the tracks that pass the confidence filter: same number, the track's
    real-world position unchanged, and the track's id truncated to an
    integer. *)
Theorem points_follow_surviving_tracks
        (self : GridBackend) (targets : list Track) (pts : list Point) :
  rescale_and_emit_points self targets = Emit pts ->
  length pts = length (confidence_filter targets) /\
  (fun p => p_x_real p) <$> pts = (fun t => posX t) <$> confidence_filter targets /\
  (fun p => p_y_real p) <$> pts = (fun t => posY t) <$> confidence_filter targets /\
  (fun p => Some (p_id p)) <$> pts = (fun t => py_int (tid t)) <$> confidence_filter targets.
Proof.
  intros Hemit. apply emit_spec in Hemit as (Hloop & _).
  split; [eapply rescale_loop_length; exact Hloop|].
  apply rescale_loop_spec in Hloop.
  induction Hloop as [|t p ts ps Hp _ (IHx & IHy & IHid)]; [auto|].
  apply rescale_point_spec in Hp as (_ & _ & Hid & Hx & Hy).
  cbn [fmap list_fmap]. fold (@fmap list _ _ _ (fun p => p_x_real p) ps).
  rewrite Hx, Hy, Hid.
  repeat split; f_equal; assumption.
Qed.

Lemma points_follow_surviving_tracks_witness :
  let targets := [Examples.track_outside; Examples.track_0_4999; Examples.track7] in
  exists p q,
    rescale_and_emit_points Examples.configured targets = Emit [p; q] /\
    length [p; q] = length (confidence_filter targets) /\
    [p_id p; p_id q] = [9; 7].
Proof.
  eexists _, _.
  assert (rescale_and_emit_points Examples.configured
            [Examples.track_outside; Examples.track_0_4999; Examples.track7]
          = Emit _) as Hemit by (vm_compute; reflexivity).
  split; [exact Hemit | split; [|reflexivity]].
  exact (proj1 (points_follow_surviving_tracks _ _ _ Hemit)).
Defined.

(* ===================================================================== *)
(** ** Grid configuration                                                 *)
(* ===================================================================== *)

(** X10: an accepted request determines the whole configuration, whatever
    was configured before: the bounds are the request's, [nx] and [ny] are
    the truncated quotients and both positive, the cell sizes are positive
    and the ranges non-empty, and the grid emitted has [ny] rows of [nx]
    zeros. *)
Theorem create_grid_accepted
        (self : GridBackend) (cfg : Cfg) (self' : GridBackend) (grid : list (list float)) :
  create_grid self cfg = (self', GridReady grid) ->
  self' = mkBackend (cfg_x_min cfg) (cfg_x_max cfg) (cfg_y_min cfg) (cfg_y_max cfg)
                    (nx self') (ny self') /\
  py_int (fdiv (fsub (cfg_x_max cfg) (cfg_x_min cfg)) (cfg_dx cfg)) = Some (nx self') /\
  py_int (fdiv (fsub (cfg_y_max cfg) (cfg_y_min cfg)) (cfg_dy cfg)) = Some (ny self') /\
  0 < nx self' /\ 0 < ny self' /\
  fleb (cfg_dx cfg) (of_Z 0) = false /\ fleb (cfg_dy cfg) (of_Z 0) = false /\
  fleb (cfg_x_max cfg) (cfg_x_min cfg) = false /\
  fleb (cfg_y_max cfg) (cfg_y_min cfg) = false /\
  length grid = Z.to_nat (ny self') /\
  Forall (fun row => row = replicate (Z.to_nat (nx self')) (S754_zero false)) grid /\
  forall other, create_grid other cfg = (self', GridReady grid).
Proof.
  unfold create_grid. cbv zeta. cbn [x_min x_max y_min y_max nx ny].
  destruct (fleb (cfg_dx cfg) (of_Z 0)) eqn:Hdx; [discriminate|].
  destruct (fleb (cfg_dy cfg) (of_Z 0)) eqn:Hdy; [discriminate|].
  destruct (fleb (cfg_x_max cfg) (cfg_x_min cfg)) eqn:Hx; [discriminate|].
  destruct (fleb (cfg_y_max cfg) (cfg_y_min cfg)) eqn:Hy; [discriminate|].
  cbn [orb].
  destruct (py_int (fdiv (fsub (cfg_x_max cfg) (cfg_x_min cfg)) (cfg_dx cfg)))
    as [nx'|] eqn:Hnx; [|discriminate].
  destruct (py_int (fdiv (fsub (cfg_y_max cfg) (cfg_y_min cfg)) (cfg_dy cfg)))
    as [ny'|] eqn:Hny; [|discriminate].
  destruct (nx' <=? 0) eqn:Hnx0; [discriminate|].
  destruct (ny' <=? 0) eqn:Hny0; [discriminate|].
  cbn [orb]. intros [= <- <-]. cbn [nx ny].
  apply Z.leb_gt in Hnx0, Hny0.
  repeat apply conj; try reflexivity; try assumption.
  - unfold np_zeros. apply length_replicate.
  - unfold np_zeros. apply Forall_replicate. reflexivity.
Qed.

Lemma create_grid_accepted_witness :
  exists grid,
    create_grid init Examples.cfg_default = (Examples.configured, GridReady grid) /\
    length grid = 24%nat /\
    create_grid (fst (create_grid init Examples.cfg_dx100)) Examples.cfg_default
    = (Examples.configured, GridReady grid).
Proof.
  eexists.
  assert (create_grid init Examples.cfg_default = (Examples.configured, GridReady _))
    as Hok by (vm_compute; reflexivity).
  split; [exact Hok|].
  pose proof (create_grid_accepted _ _ _ _ Hok) as H.
  split; [exact (proj1 (proj2 (proj2 (proj2 (proj2 (proj2 (proj2 (proj2 (proj2
                   (proj2 H))))))))))|].
  apply H.
Defined.

(** X11: whatever the outcome of a request, the four bounds stored
    afterwards are the request's.  After "Invalid cell size" or "Invalid
    range" [nx] and [ny] are the previous ones; after "Invalid grid size"
    the rejected dimensions are stored and one of them is not positive;
    when [int] raises, [ny] is the previous one. *)
Theorem create_grid_stores_bounds (self : GridBackend) (cfg : Cfg) :
  let self' := (create_grid self cfg).1 in
  let outcome := (create_grid self cfg).2 in
  x_min self' = cfg_x_min cfg /\ x_max self' = cfg_x_max cfg /\
  y_min self' = cfg_y_min cfg /\ y_max self' = cfg_y_max cfg /\
  (outcome = InvalidCellSize \/ outcome = InvalidRange ->
   nx self' = nx self /\ ny self' = ny self) /\
  (outcome = InvalidGridSize -> nx self' <= 0 \/ ny self' <= 0) /\
  (outcome = BackendError -> ny self' = ny self).
Proof.
  unfold create_grid. cbv zeta. cbn [x_min x_max y_min y_max nx ny].
  destruct (fleb (cfg_dx cfg) (of_Z 0) || fleb (cfg_dy cfg) (of_Z 0));
    [cbn; repeat apply conj; try reflexivity; try discriminate; auto|].
  destruct (fleb (cfg_x_max cfg) (cfg_x_min cfg) || fleb (cfg_y_max cfg) (cfg_y_min cfg));
    [cbn; repeat apply conj; try reflexivity; try discriminate; auto|].
  destruct (py_int (fdiv (fsub (cfg_x_max cfg) (cfg_x_min cfg)) (cfg_dx cfg))) as [nx'|];
    [|cbn; repeat apply conj; try reflexivity; try discriminate;
      intros [H|H]; discriminate H].
  destruct (py_int (fdiv (fsub (cfg_y_max cfg) (cfg_y_min cfg)) (cfg_dy cfg))) as [ny'|];
    [|cbn; repeat apply conj; try reflexivity; try discriminate;
      intros [H|H]; discriminate H].
  destruct (nx' <=? 0) eqn:Hnx0; destruct (ny' <=? 0) eqn:Hny0; cbn.
  all: repeat apply conj; try reflexivity; try discriminate.
  all: try (intros [H|H]; discriminate H).
  all: intros _; rewrite ?Z.leb_le in *; auto.
Qed.

(* ===================================================================== *)
(** ** Complete track payloads                                            *)
(* ===================================================================== *)

(** X12: when the payload holds all the [n = int(tlvLength / 112)] records
    asked for, the decoder reports [n] and returns exactly the [n] decoded
    rows, in order; bytes behind the last record are ignored and no row
    of the fresh array is left as it was. *)
Theorem track_payload_decoded
        (uninit : nat -> Track) (tlvData extra : bytes) (tlvLength : Z) (n : nat) :
  py_int (fdiv (of_Z tlvLength) (of_Z (Z.of_nat targetSize))) = Some (Z.of_nat n) ->
  length tlvData = (targetSize * n)%nat ->
  parse_track_tlv uninit (tlvData ++ extra) tlvLength
  = Some (Z.of_nat n, decoded tlvData <$> seq 0 n).
Proof.
  intros Hcount Hlen.
  rewrite (parse_track_tlv_complete uninit _ _ n Hcount)
    by (rewrite length_app; lia).
  do 2 f_equal. apply list_fmap_ext. intros i j Hj.
  apply lookup_seq in Hj as [-> Hi]. cbn [Nat.add].
  unfold decoded, slice. do 3 f_equal.
  rewrite !take_drop_commute. f_equal. apply take_app_le.
  unfold targetSize in *. lia.
Qed.

Lemma track_payload_decoded_witness :
  let tlvData := Examples.record7 ++ Examples.record 9 0x447A0000 0xC0A00000 Examples.bits_0_9 in
  py_int (fdiv (of_Z 230) (of_Z (Z.of_nat targetSize))) = Some (Z.of_nat 2) /\
  length tlvData = (targetSize * 2)%nat /\
  parse_track_tlv Examples.nan_row (tlvData ++ [x01; x02; x03; x04; x05; x06]) 230
  = Some (2, [Examples.track7; Examples.track_outside]).
Proof.
  assert (py_int (fdiv (of_Z 230) (of_Z (Z.of_nat targetSize))) = Some (Z.of_nat 2))
    as Hcount by (vm_compute; reflexivity).
  assert (length (Examples.record7
                    ++ Examples.record 9 0x447A0000 0xC0A00000 Examples.bits_0_9)
          = (targetSize * 2)%nat) as Hlen by (vm_compute; reflexivity).
  split; [exact Hcount | split; [exact Hlen|]].
  rewrite (track_payload_decoded Examples.nan_row _ _ _ _ Hcount Hlen).
  vm_compute. reflexivity.
Defined.

(* ===================================================================== *)
(** ** Configuration commands                                             *)
(* ===================================================================== *)

Section Commands.

Lemma lstrip_head (s : str) (c : N) : head (lstrip s) = Some c -> is_space c = false.
Proof.
  induction s as [|a s IH]; cbn [lstrip]; [discriminate|].
  destruct (is_space a) eqn:Ha; [exact IH|].
  cbn. intros [= <-]. exact Ha.
Qed.

Lemma lstrip_fixed (s : str) :
  (forall c, head s = Some c -> is_space c = false) -> lstrip s = s.
Proof.
  destruct s as [|a s]; [reflexivity|]. intros H. cbn [lstrip].
  rewrite (H a) by reflexivity. reflexivity.
Qed.

Lemma lstrip_snoc (s : str) (c : N) :
  is_space c = false -> lstrip (s ++ [c]) = lstrip s ++ [c].
Proof.
  intros Hc. induction s as [|a s IH]; cbn [app lstrip].
  - rewrite Hc. reflexivity.
  - destruct (is_space a); [exact IH | reflexivity].
Qed.

Lemma rstrip_cons (c : N) (s : str) :
  is_space c = false -> rstrip (c :: s) = c :: rstrip s.
Proof.
  intros Hc. unfold rstrip.
  rewrite reverse_cons, lstrip_snoc by exact Hc.
  apply reverse_snoc.
Qed.

Lemma rstrip_last (s : str) (c : N) : last (rstrip s) = Some c -> is_space c = false.
Proof.
  unfold rstrip. rewrite last_reverse. apply lstrip_head.
Qed.

Lemma rstrip_fixed (s : str) :
  (forall c, last s = Some c -> is_space c = false) -> rstrip s = s.
Proof.
  intros H. unfold rstrip. rewrite lstrip_fixed.
  - apply reverse_involutive.
  - intros c Hc. apply H. rewrite <- head_reverse. exact Hc.
Qed.

Lemma strip_trimmed (s : str) : trimmed (strip s).
Proof.
  unfold strip. split; [|apply rstrip_last].
  intros c. destruct (lstrip s) as [|a t] eqn:Ht; [discriminate|].
  assert (is_space a = false) as Ha by (apply (lstrip_head s); rewrite Ht; reflexivity).
  rewrite rstrip_cons by exact Ha. intros [= <-]. exact Ha.
Qed.

Lemma strip_fixed (s : str) : trimmed s -> strip s = s.
Proof.
  intros [Hhead Hlast]. unfold strip.
  rewrite lstrip_fixed by exact Hhead. apply rstrip_fixed. exact Hlast.
Qed.

(** Stripping a command that was written gives back the line it was
    made from. *)
Lemma strip_command (body : str) :
  trimmed body -> body <> [] -> strip (body ++ [10%N]) = body.
Proof.
  intros [Hhead Hlast] Hne. unfold strip.
  rewrite lstrip_fixed.
  - unfold rstrip. rewrite reverse_snoc. cbn [lstrip].
    change (is_space 10) with true. cbv iota.
    rewrite lstrip_fixed; [apply reverse_involutive|].
    intros c Hc. apply Hlast. rewrite <- head_reverse. exact Hc.
  - destruct body as [|a body]; [congruence|]. exact Hhead.
Qed.

Lemma send_config_cons (line : str) (rest : list str) :
  send_config (line :: rest)
  = if bool_decide (strip line = []) || startswith_percent (strip line)
    then send_config rest
    else (strip line ++ [10%N]) :: send_config rest.
Proof. reflexivity. Qed.

End Commands.

(** X13: every command that [send_config] writes is a line of the file,
    stripped of white space at both ends and followed by a single newline;
    it is not empty and does not start with [%].  The commands are written
    in the order of the lines, and sending the written commands again as a
    configuration file writes exactly the same commands. *)
Theorem send_config_commands (lines : list str) :
  Forall (fun cmd => exists line,
              In line lines /\ cmd = strip line ++ [10%N] /\
              trimmed (strip line) /\ strip line <> [] /\
              startswith_percent (strip line) = false)
         (send_config lines) /\
  sublist (send_config lines) ((fun line => strip line ++ [10%N]) <$> lines) /\
  send_config (send_config lines) = send_config lines.
Proof.
  induction lines as [|line lines (IHall & IHsub & IHidem)].
  - repeat split; [constructor | constructor].
  - rewrite send_config_cons. cbn [fmap list_fmap].
    destruct (bool_decide (strip line = [])) eqn:Hempty; cbn [orb].
    + repeat split; [|apply sublist_cons; exact IHsub | exact IHidem].
      eapply Forall_impl; [exact IHall|].
      intros cmd (l & Hin & Hrest). exists l. split; [right; exact Hin | exact Hrest].
    + destruct (startswith_percent (strip line)) eqn:Hpct.
      * repeat split; [|apply sublist_cons; exact IHsub | exact IHidem].
        eapply Forall_impl; [exact IHall|].
        intros cmd (l & Hin & Hrest). exists l. split; [right; exact Hin | exact Hrest].
      * apply bool_decide_eq_false in Hempty.
        repeat split.
        -- constructor.
           ++ exists line. repeat split; try assumption; try (left; reflexivity);
                apply strip_trimmed.
           ++ eapply Forall_impl; [exact IHall|].
              intros cmd (l & Hin & Hrest). exists l.
              split; [right; exact Hin | exact Hrest].
        -- apply sublist_skip. exact IHsub.
        -- rewrite send_config_cons.
           rewrite strip_command by (try apply strip_trimmed; exact Hempty).
           rewrite bool_decide_false by exact Hempty. rewrite Hpct. cbn [orb].
           rewrite IHidem. reflexivity.
Qed.

(* ===================================================================== *)
(** ** Configuration and mapping together                                 *)
(* ===================================================================== *)

Section Composition.


Lemma nan_coordinate (n : Z) (x y : float) :
  0 < n ->
  py_max (NInt 0) (py_min (NInt (n - 1)) (NFloat (fmul (fdiv (fsub S754_nan x) y) (of_Z (n - 1)))))
  = NInt (n - 1).
Proof.
  intros Hn. unfold py_max, py_min. cbn [fsub SFsub fdiv SFdiv fmul SFmul num_ltb].
  change (fltb S754_nan (of_Z (n - 1))) with false. cbv iota. cbn [num_ltb].
  destruct (0 <? n - 1) eqn:Hlt; [reflexivity|].
  apply Z.ltb_ge in Hlt. f_equal. lia.
Qed.

End Composition.



(** X15: a track whose position is NaN is not dropped: with a
    configured grid its point is placed on the last cell, [nx - 1] for a
    NaN [posX] and [ny - 1] for a NaN [posY], as the [int] itself. *)
Theorem nan_position_maps_to_last_cell (self : GridBackend) (t : Track) (p : Point) :
  rescale_point self t = Some p ->
  (0 < nx self -> posX t = S754_nan -> p_x p = NInt (nx self - 1)) /\
  (0 < ny self -> posY t = S754_nan -> p_y p = NInt (ny self - 1)).
Proof.
  unfold rescale_point. destruct (py_int (tid t)) as [target_id|]; [|discriminate].
  intros [= <-]. cbn [p_x p_y].
  split; intros Hn ->; apply nan_coordinate; exact Hn.
Qed.

Lemma nan_position_maps_to_last_cell_witness :
  let t := mkTrack (of_Z 3) S754_nan (of_Z 50) (of_Z 0) (of_Z 0) (of_Z 0) (of_Z 0)
                   (of_Z 0) (of_Z 0) (of_Z 0) (of_Z 0) half in
  exists p, rescale_point Examples.configured t = Some p /\ p_x p = NInt 23.
Proof.
  eexists.
  assert (rescale_point Examples.configured
            (mkTrack (of_Z 3) S754_nan (of_Z 50) (of_Z 0) (of_Z 0) (of_Z 0) (of_Z 0)
                     (of_Z 0) (of_Z 0) (of_Z 0) (of_Z 0) half) = Some _) as Hp
    by (vm_compute; reflexivity).
  split; [exact Hp|].
  apply (proj1 (nan_position_maps_to_last_cell _ _ _ Hp)); vm_compute; reflexivity.
Defined.
